(** * Connect translation, custom-resolver metadata and sort ordering

    A shallow embedding of the parts of the GraphQL-to-Cypher translation
    engine that the specification's properties talk about:

    - [Connect]: the connect compiler ([createConnectAndParams] with its inner
      functions [createSubqueryContents] and [reducer]);
    - [CustomResolver]: [getCustomResolverMeta] and its module-level
      deprecation flag;
    - [ReadSort]: the ordering of projection, sort and pagination in a read;
    - [Graph]: what executing a merge does to the edges of a graph;
    - [ResolveTrees]: [selectionSetToResolveTree],
      [nestedSelectionSetToResolveTrees] and [getNestedType], which turn the
      selection set of [requires] into resolve trees.

    Input objects are JavaScript values ([JS.any]); objects keep their keys
    in insertion order, parameter maps ([Record<string, any>]) are finite maps
    keyed by strings, and a read of a property goes through the prototype
    chain.  Code that can throw returns a [JS.result]: a value, a
    [TypeError] or the [ReferenceError] of a name that is not declared.  The
    clause objects of the Cypher builder are kept as the constructor and
    builder calls that made them ([Cypher.Clause]).  The functions the
    compiler imports are the fields of the class [Connect.Imports];
    [Notions] holds the notions the properties are stated with, [Sample] a
    small schema and [Cases] further inputs on which they are exercised. *)

From Stdlib Require Import String Ascii List ZArith Lia Bool.
From stdpp Require Import base option list strings gmap pretty.

Open Scope string_scope.
Open Scope list_scope.
Set Warnings "-register-all".

(* ===================================================================== *)
(** ** JavaScript values *)
(* ===================================================================== *)

Module JS.

(** A value of type [any].  Numbers are the integers ([Int] inputs); an
    object is the list of its own enumerable properties in insertion order.
    [VObj] is an ordinary object, which inherits from [Object.prototype]
    (an object literal, a resolver map, the coerced value of a variable);
    [VBare] is an object created without a prototype ([Object.create(null)]).
    [VBuiltin] is a function or an object of the runtime (a resolver, or
    what a read finds on [Object.prototype]): it is truthy, is no array and
    has no enumerable property; what it holds under a name is not described.
    [VUnknown] stands for the result of a read that the model does not
    describe. *)
Inductive any : Type :=
| VUndefined
| VNull
| VBool (b : bool)
| VNum (n : Z)
| VStr (s : string)
| VArr (xs : list any)
| VObj (fields : list (string * any))
| VBare (fields : list (string * any))
| VBuiltin
| VUnknown.

(** Outcome of a computation that may throw.  [NoFuel] and [Unmodelled] are
    not JavaScript outcomes: the first marks a recursion that was cut off by
    the fuel bound, the second a run that reads a property which the model
    does not describe (a name that an array, a string, a number or a boolean
    may inherit, or any name of a built-in value). *)
Inductive result (A : Type) : Type :=
| Ok (a : A)
| TypeError
| ReferenceError (identifier : string)
| NoFuel
| Unmodelled.

Arguments Ok {A} a.
Arguments TypeError {A}.
Arguments ReferenceError {A} identifier.
Arguments NoFuel {A}.
Arguments Unmodelled {A}.

Definition bind {A B : Type} (m : result A) (f : A -> result B) : result B :=
  match m with
  | Ok a => f a
  | TypeError => TypeError
  | ReferenceError identifier => ReferenceError identifier
  | NoFuel => NoFuel
  | Unmodelled => Unmodelled
  end.

(** Reading an identifier that no enclosing scope declares throws. *)
Definition undeclared {A : Type} (identifier : string) : result A :=
  ReferenceError identifier.

(** [xs.forEach] / [xs.reduce] with a callback that may throw: a left fold
    that stops at the first exception. *)
Fixpoint foldM {A B : Type} (f : B -> A -> result B) (xs : list A) (acc : B)
  : result B :=
  match xs with
  | [] => Ok acc
  | x :: xs' => bind (f acc x) (foldM f xs')
  end.

(** The same fold with the element's index as third callback argument. *)
Fixpoint foldMi {A B : Type} (f : B -> A -> nat -> result B) (i : nat)
  (xs : list A) (acc : B) : result B :=
  match xs with
  | [] => Ok acc
  | x :: xs' => bind (f acc x i) (foldMi f (S i) xs')
  end.

(** [xs.filter] with a predicate that may throw. *)
Fixpoint filterM {A : Type} (p : A -> result bool) (xs : list A) : result (list A) :=
  match xs with
  | [] => Ok []
  | x :: xs' =>
      bind (p x) (fun b =>
      bind (filterM p xs') (fun r => Ok (if b then x :: r else r)))
  end.

(** [xs.some] with a predicate that may throw; stops at the first hit. *)
Fixpoint someM {A : Type} (p : A -> result bool) (xs : list A) : result bool :=
  match xs with
  | [] => Ok false
  | x :: xs' => bind (p x) (fun b => if b then Ok true else someM p xs')
  end.

(** Truthiness, as tested by [if (v)], [v && ...] and [v ? a : b].  An
    unknown value counts as truthy, so that a value known to be falsy is one
    the model describes; the code that tests the result of such a read goes
    through [determined] first. *)
Definition truthy (v : any) : bool :=
  match v with
  | VUndefined | VNull => false
  | VBool b => b
  | VNum n => negb (Z.eqb n 0)
  | VStr s => negb (String.eqb s "")
  | VArr _ | VObj _ | VBare _ | VBuiltin | VUnknown => true
  end.

Definition lookup_field (k : string) (fields : list (string * any)) : option any :=
  snd <$> List.find (fun kv => String.eqb (fst kv) k) fields.

Fixpoint indexed_from (i : nat) (xs : list any) : list (string * any) :=
  match xs with
  | [] => []
  | x :: xs' => (pretty i, x) :: indexed_from (S i) xs'
  end.

(** The characters of a string, each a string of length one. *)
Definition characters (s : string) : list any :=
  (fun c => VStr (String c EmptyString)) <$> list_ascii_of_string s.

(** The own enumerable properties: the fields of an object, the elements of
    an array and the characters of a string under their indices. *)
Definition own_entries (v : any) : list (string * any) :=
  match v with
  | VObj fields | VBare fields => fields
  | VArr xs => indexed_from 0 xs
  | VStr s => indexed_from 0 (characters s)
  | _ => []
  end.

(** The own property [length] of arrays and strings is not enumerable. *)
Definition own_length (v : any) : option any :=
  match v with
  | VArr xs => Some (VNum (Z.of_nat (length xs)))
  | VStr s => Some (VNum (Z.of_nat (String.length s)))
  | _ => None
  end.

Definition own_property (v : any) (k : string) : option any :=
  match lookup_field k (own_entries v) with
  | Some x => Some x
  | None => if String.eqb k "length" then own_length v else None
  end.

(** The names of the properties of [Object.prototype]: an ordinary object
    that does not own one of these names finds a function under it (under
    [__proto__], the prototype). *)
Definition Object_prototype : list string :=
  ["constructor"; "__defineGetter__"; "__defineSetter__"; "hasOwnProperty";
   "__lookupGetter__"; "__lookupSetter__"; "isPrototypeOf"; "propertyIsEnumerable";
   "toString"; "valueOf"; "__proto__"; "toLocaleString"].

(** Names that the prototype of an array, a string, a number or a boolean
    carries in some edition of the language, besides those of
    [Object.prototype].  Which of them a given runtime has depends on its
    edition; a name that is not listed is on none of these prototypes. *)
Definition Array_prototype : list string :=
  ["at"; "concat"; "copyWithin"; "entries"; "every"; "fill"; "filter"; "find";
   "findIndex"; "findLast"; "findLastIndex"; "flat"; "flatMap"; "forEach"; "group";
   "groupBy"; "groupByToMap"; "groupToMap"; "includes"; "indexOf"; "join"; "keys";
   "lastIndexOf"; "map"; "pop"; "push"; "reduce"; "reduceRight"; "reverse"; "shift";
   "slice"; "some"; "sort"; "splice"; "toReversed"; "toSorted"; "toSpliced"; "unshift";
   "values"; "with"].

Definition String_prototype : list string :=
  ["anchor"; "at"; "big"; "blink"; "bold"; "charAt"; "charCodeAt"; "codePointAt";
   "concat"; "endsWith"; "fixed"; "fontcolor"; "fontsize"; "includes"; "indexOf";
   "isWellFormed"; "italics"; "lastIndexOf"; "link"; "localeCompare"; "match";
   "matchAll"; "normalize"; "padEnd"; "padStart"; "repeat"; "replace"; "replaceAll";
   "search"; "slice"; "small"; "split"; "startsWith"; "strike"; "sub"; "substr";
   "substring"; "sup"; "toLocaleLowerCase"; "toLocaleUpperCase"; "toLowerCase";
   "toUpperCase"; "toWellFormed"; "trim"; "trimEnd"; "trimLeft"; "trimRight";
   "trimStart"].

Definition Number_prototype : list string :=
  ["toExponential"; "toFixed"; "toPrecision"].

Definition has (k : string) (names : list string) : bool :=
  existsb (String.eqb k) names.

(** What [v?.[k]] finds when [k] is no own property of [v]. *)
Definition inherited (v : any) (k : string) : result any :=
  match v with
  | VUndefined | VNull | VBare _ => Ok VUndefined
  | VObj _ => Ok (if has k Object_prototype then VBuiltin else VUndefined)
  | VArr _ =>
      if has k (Array_prototype ++ Object_prototype) then Unmodelled else Ok VUndefined
  | VStr _ =>
      if has k (String_prototype ++ Object_prototype) then Unmodelled else Ok VUndefined
  | VNum _ =>
      if has k (Number_prototype ++ Object_prototype) then Unmodelled else Ok VUndefined
  | VBool _ => if has k Object_prototype then Unmodelled else Ok VUndefined
  | VBuiltin | VUnknown => Unmodelled
  end.

(** [v?.[k]]: the own property, or else what the prototype chain gives. *)
Definition read (v : any) (k : string) : result any :=
  match own_property v k with
  | Some x => Ok x
  | None => inherited v k
  end.

(** The value of [v?.[k]], [VUnknown] where the model does not describe it. *)
Definition opt_get (v : any) (k : string) : any :=
  match read v k with
  | Ok x => x
  | _ => VUnknown
  end.

(** A value that may come from a read the model does not describe. *)
Definition determined (v : any) : result any :=
  match v with
  | VUnknown => Unmodelled
  | _ => Ok v
  end.

(** [v.k] and [v[k]]: reading a property of [undefined] or [null] throws. *)
Definition get (v : any) (k : string) : result any :=
  match v with
  | VUndefined | VNull => TypeError
  | _ => read v k
  end.

(** [Object.prototype.hasOwnProperty.call(v, k)]. *)
Definition hasOwnProperty (v : any) (k : string) : result bool :=
  match v with
  | VUndefined | VNull => TypeError
  | VBuiltin | VUnknown => Unmodelled
  | _ => Ok (bool_decide (is_Some (own_property v k)))
  end.

(** [Object.entries(v)]. *)
Definition entries (v : any) : result (list (string * any)) :=
  match v with
  | VUndefined | VNull => TypeError
  | VUnknown => Unmodelled
  | _ => Ok (own_entries v)
  end.

(** [Object.keys(v)]. *)
Definition keys (v : any) : result (list string) :=
  bind (entries v) (fun es => Ok (fst <$> es)).

(** [Array.isArray(v) ? v : [v]]. *)
Definition arrayify (v : any) : list any :=
  match v with
  | VArr xs => xs
  | _ => [v]
  end.

(** Object literals built by the code: [{ ...o, [k]: v }] assigns [k], which
    keeps the position of a key that [o] already has and appends a new one. *)
Definition obj : Type := list (string * any).

Fixpoint obj_set (k : string) (v : any) (o : obj) : obj :=
  match o with
  | [] => [(k, v)]
  | (k', v') :: o' =>
      if String.eqb k' k then (k, v) :: o' else (k', v') :: obj_set k v o'
  end.

(** [{ ...o, ...extra }]: spreading [undefined], [null], a number, a
    boolean or a function adds nothing. *)
Definition obj_spread (o : obj) (extra : any) : obj :=
  fold_left (fun acc kv => obj_set (fst kv) (snd kv) acc) (own_entries extra) o.

(** Parameter maps, [Record<string, any>]; [{ ...a, ...b }] is
    [spread a b], where the bindings of [b] win. *)
Abbreviation Params := (gmap string any).

Definition spread (a b : Params) : Params := b ∪ a.

End JS.

Import JS.

Notation "x <-- m ; k" := (JS.bind m (fun x => k))
  (at level 20, m at level 100, k at level 200, only parsing).

(** [xs.join(sep)]. *)
Definition join (sep : string) (xs : list string) : string := String.concat sep xs.

Definition tab : string := String (ascii_of_nat 9) EmptyString.
Definition newline : string := String (ascii_of_nat 10) EmptyString.
Definition dquote : string := String (ascii_of_nat 34) EmptyString.
Definition backslash : string := String (ascii_of_nat 92) EmptyString.

(** A string used as a condition: the empty string is falsy. *)
Definition nonempty (s : string) : bool := negb (String.eqb s "").

(* ===================================================================== *)
(** ** The schema model, as far as the connect compiler reads it *)
(* ===================================================================== *)

Module Schema.

Inductive Direction := IN | OUT.

Record TypeMeta := { tm_name : string; tm_array : bool }.

Record InterfaceField := { implementations : list string }.

(** [union] is only tested for presence. *)
Record RelationField := {
  fieldName : string;
  type : string;
  direction : Direction;
  properties : option string;
  union : bool;
  interface : option InterfaceField;
  typeMeta : TypeMeta;
}.

(** [auth] is the entity's authorization directive; the compiler only tests
    its presence and hands the node to the authorization generator. *)
Record Node := {
  name : string;
  auth : option any;
  relationFields : list RelationField;
}.

Record Relationship := {
  rel_name : string;
  rel_properties : option string;
}.

Record Context := {
  subscriptionsEnabled : bool;
  nodes : list Node;
  relationships : list Relationship;
}.

(** [context.nodes.find((x) => x.name === modelName)]. *)
Definition findNode (ctx : Context) (modelName : string) : option Node :=
  List.find (fun x => String.eqb x.(name) modelName) ctx.(nodes).

End Schema.

Import Schema.

(* ===================================================================== *)
(** ** Clause objects of the Cypher builder *)
(* ===================================================================== *)

Module Cypher.

(** References: [new Cypher.NamedVariable(s)], [new Cypher.NamedNode(s)] and
    [AnonVariable] for the anonymous [new Cypher.Variable()], numbered in
    creation order. *)
Inductive Ref :=
| NamedVariable (s : string)
| NamedNode (s : string)
| AnonVariable (id : nat).

(** [env.getReferenceId(r)]: a named reference is rendered by its name, an
    anonymous one by a generated identifier. *)
Definition getReferenceId (r : Ref) : string :=
  match r with
  | NamedVariable s | NamedNode s => s
  | AnonVariable id => "var" +:+ pretty id
  end.

(** [new Cypher.RawCypher((env) => `...`)]: the template of the callback,
    with the references it renders through [env]. *)
Inductive RawPart :=
| RText (s : string)
| RRef (r : Ref).

Definition renderRaw (parts : list RawPart) : string :=
  join "" ((fun p => match p with RText s => s | RRef r => getReferenceId r end) <$> parts).

Inductive Expr :=
| EVar (r : Ref)
| ERaw (parts : list RawPart)
| ECollect (e : Expr)
| ECount (e : Expr).

(** A projection column: a bare variable, or [[expr, alias]]. *)
Inductive Column :=
| CVar (r : Ref)
| CAlias (e : Expr) (alias : Ref).

(** Predicates: those returned by the filter compiler and the authorization
    generator are opaque to the connect compiler; [PValidate p m] is
    [new Cypher.apoc.ValidatePredicate(p, m)] and [PAnd ps] is
    [Cypher.and(...ps)]. *)
Inductive Predicate :=
| POpaque (cypher : string)
| PValidate (p : Predicate) (message : string)
| PAnd (ps : list Predicate).

(** [new Cypher.Relationship({ source, target, type })]. *)
Record RelationshipPattern := {
  source : Ref;
  target : Ref;
  rtype : string;
}.

(** A clause object is its constructor together with the builder calls made
    on it: [withs] lists the arguments of each [.with(...)] call and
    [wheres] those of each [.where(...)] call (which the builder ANDs). *)
Inductive Clause :=
| OptionalMatch (node : Ref) (withs : list (list Column)) (wheres : list Predicate)
| With (columns : list Column) (withs : list (list Column))
| Unwind (columns : list Column) (withs : list (list Column))
| Merge (pattern : RelationshipPattern)
| RawCypher (parts : list RawPart)
| Concat (clauses : list (option Clause))
| CallReturn (body : Clause) (returns : list Column).

End Cypher.

Import Cypher.

(* ===================================================================== *)
(** ** The connect compiler *)
(* ===================================================================== *)

Module Connect.

(** *** Collaborators

    The functions the module imports are not part of the compiler; they are
    taken as they are called, each with the record of options it receives. *)

Record WhereArgs := {
  w_targetElement : Ref;
  w_whereInput : obj;
  w_context : Context;
  w_element : Node;
}.

(** [where: { varName, node }] and [allow / bind: { parentNode, varName,
    chainStr }]; [varName] is a node reference for [createAuthPredicates] and
    a variable name for [createAuthAndParams]. *)
Record AuthWhere (V : Type) := { aw_varName : V; aw_node : Node }.
Record AuthRule (V : Type) := { ar_parentNode : Node; ar_varName : V; ar_chainStr : string }.

Record AuthArgs (V : Type) := {
  a_entity : Node;
  a_operations : string;
  a_context : Context;
  a_escapeQuotes : option bool;
  a_skipIsAuthenticated : bool;
  a_skipRoles : bool;
  a_where : option (AuthWhere V);
  a_allow : option (AuthRule V);
  a_bind : option (AuthRule V);
}.

Arguments Build_AuthWhere {V}.
Arguments aw_varName {V}.
Arguments aw_node {V}.
Arguments Build_AuthRule {V}.
Arguments ar_parentNode {V}.
Arguments ar_varName {V}.
Arguments ar_chainStr {V}.
Arguments Build_AuthArgs {V}.
Arguments a_entity {V}.
Arguments a_operations {V}.
Arguments a_context {V}.
Arguments a_escapeQuotes {V}.
Arguments a_skipIsAuthenticated {V}.
Arguments a_skipRoles {V}.
Arguments a_where {V}.
Arguments a_allow {V}.
Arguments a_bind {V}.

(** [varName] receives [relationshipPattern.pattern.name]; the pattern it is
    read from stands for it. *)
Record SetRelationshipPropertiesArgs := {
  s_properties : any;
  s_varName : RelationshipPattern;
  s_relationship : option Relationship;
  s_operation : string;
  s_callbackBucket : any;
}.

Record ConnectionEventMetaArgs := {
  e_event : string;
  e_relVariable : string;
  e_fromVariable : string;
  e_toVariable : string;
  e_typename : string;
  e_fromTypename : string;
  e_toTypename : string;
}.

Record RelationshipValidationArgs := {
  v_node : Node;
  v_context : Context;
  v_varName : string;
}.

Class Imports := {
  createWherePredicate : WhereArgs -> option Predicate;
  createAuthPredicates : AuthArgs Ref -> option Predicate;
  createAuthAndParams : AuthArgs string -> string * Params;
  createSetRelationshipPropertiesAndParams : SetRelationshipPropertiesArgs -> string * Params;
  createRelationshipValidationString : RelationshipValidationArgs -> string;
  createConnectionEventMetaObject : ConnectionEventMetaArgs -> string;
  filterMetaVariable : list string -> list string;
  getLabelString : Node -> Context -> string;
  AUTH_FORBIDDEN_ERROR : string;
}.

(** *** Data of the compiler *)

Record ConnectArgs := {
  withVars : list string;
  value : any;
  varName : string;
  relationField : RelationField;
  parentVar : string;
  refNodes : list (option Node);
  context : Context;
  callbackBucket : any;
  labelOverride : option string;
  parentNode : Node;
  fromCreate : bool;
  insideDoWhen : bool;
  includeRelationshipValidation : bool;
  isFirstLevel : bool;
}.

Record Res := {
  connects : list string;
  params : Params;
}.

(** The result of [createSubqueryContents], [{ subquery, params }]. *)
Record SubqueryContents := {
  subquery : string;
  sq_params : Params;
}.

(** The clause objects that [createSubqueryContents] builds. *)
Record Built := {
  matchClause : Clause;
  outerSubquery : Clause;
}.

(** [xs.reduce((result, x, i) => ..., init)] with a callback that cannot throw. *)
Fixpoint reducei {A B : Type} (f : B -> A -> nat -> B) (i : nat) (xs : list A)
  (acc : B) : B :=
  match xs with
  | [] => acc
  | x :: xs' => reducei f (S i) xs' (f acc x i)
  end.

Definition is_truthy_string (o : option string) : bool :=
  match o with
  | Some s => nonempty s
  | None => false
  end.

Section createConnectAndParams.

Context `{!Imports}.

(** The recursive call of [createConnectAndParams]. *)
Variable recurse : ConnectArgs -> result (string * Params).

Variable a : ConnectArgs.

Definition namedWithVars : list Ref := NamedVariable <$> a.(withVars).
Definition metaFilteredVars : list Ref :=
  NamedVariable <$> filterMetaVariable a.(withVars).

(** **** [createSubqueryContents]: the clause objects *)

Definition nodeRef : Ref := NamedNode a.(varName).
Definition parentNodeRef : Ref := NamedNode a.(parentVar).
Definition relationship : Ref := AnonVariable 0.
Definition metaVar : Ref := NamedVariable "meta".
Definition updateMetaVar : Ref := NamedVariable "update_meta".
Definition connectedNodesVar : Ref := NamedVariable "connectedNodes".
Definition parentNodesVar : Ref := NamedVariable "parentNodes".

Definition labels (relatedNode : Node) : string := getLabelString relatedNode a.(context).

(** Only passed to [nodeRef.hasLabels], whose result is not used. *)
Definition overriddenLabels (relatedNode : Node) : string :=
  if is_truthy_string a.(labelOverride)
  then ":" +:+ default "" a.(labelOverride)
  else labels relatedNode.

Definition emptyMeta : Column := CAlias (ERaw [RText "[]"]) metaVar.

(** The [.with] calls on a clause that threads the event metadata. *)
Definition metaWiths : list (list Column) :=
  if a.(context).(subscriptionsEnabled)
  then [(CVar <$> metaFilteredVars) ++ [emptyMeta]]
  else [].

(** The test that guards the early return: [_on] is the only key of the node
    filter and has no entry for this implementation. *)
Definition onlyOnWithoutImplementation (relatedNode : Node) (node : any) : result bool :=
  on <-- get node "_on";
  if truthy on then
    ks <-- keys node;
    if Nat.eqb (length ks) 1 then
      h <-- hasOwnProperty on relatedNode.(name);
      Ok (negb h)
    else Ok false
  else Ok false.

(** The [whereInput] of the first [createWherePredicate] call. *)
Definition rootWhereInput (relatedNode : Node) (node : any) : result obj :=
  es <-- entries node;
  foldM (fun (args : obj) (kv : string * any) =>
        let (k, v) := kv in
        if negb (String.eqb k "_on") then
          on <-- read node "_on";
          implementation <-- read on relatedNode.(name);
          overriding <-- read implementation k;
          if truthy overriding
          then Ok args
          else Ok (obj_set k v args)
        else Ok args) es [].

(** The [whereInput] of the second call, made for [_on] filters. *)
Definition onTypeWhereInput (relatedNode : Node) (node : any) : result obj :=
  es <-- entries node;
  foldM (fun (args : obj) (kv : string * any) =>
        let (k, v) := kv in
        if negb (String.eqb k "_on") then Ok (obj_set k v args)
        else
          h <-- hasOwnProperty v relatedNode.(name);
          if h then
            impl <-- get v relatedNode.(name);
            Ok (obj_spread args impl)
          else Ok args) es [].

Definition wherePredicate (relatedNode : Node) (whereInput : obj) : option Predicate :=
  createWherePredicate
    {| w_targetElement := nodeRef; w_whereInput := whereInput;
       w_context := a.(context); w_element := relatedNode |}.

(** The [if (connect.where)] block: [None] is the early return, otherwise
    the predicates passed to [matchClause.where], in call order. *)
Definition whereFilter (relatedNode : Node) (connect : any)
  : result (option (list Predicate)) :=
  w <-- get connect "where";
  if truthy w then
    node <-- get w "node";
    skip <-- onlyOnWithoutImplementation relatedNode node;
    if skip then Ok None
    else
      rootInput <-- rootWhereInput relatedNode node;
      let rootNodeWhereAndParams := wherePredicate relatedNode rootInput in
      on <-- read node "_on";
      implementation <-- read on relatedNode.(name);
      onTypeNodeWhereAndParams <--
        (if truthy implementation then
           onInput <-- onTypeWhereInput relatedNode node;
           Ok (wherePredicate relatedNode onInput)
         else Ok None);
      Ok (Some (option_list rootNodeWhereAndParams ++ option_list onTypeNodeWhereAndParams))
  else Ok (Some []).

(** The [if (relatedNode.auth)] block. *)
Definition whereAuthPredicate (relatedNode : Node) : option Predicate :=
  match relatedNode.(auth) with
  | Some _ =>
      createAuthPredicates
        {| a_entity := relatedNode; a_operations := "CONNECT";
           a_context := a.(context); a_escapeQuotes := None;
           a_skipIsAuthenticated := false; a_skipRoles := false;
           a_where := Some {| aw_varName := nodeRef; aw_node := relatedNode |};
           a_allow := None; a_bind := None |}
  | None => None
  end.

Definition nodeMatrix (relatedNode : Node) : list (Node * Ref) :=
  [(relatedNode, nodeRef)] ++ (if negb a.(fromCreate) then [(a.(parentNode), parentNodeRef)] else []).

Definition allowPredicate (node : Node) (ref : Ref) (i : nat) : option Predicate :=
  createAuthPredicates
    {| a_entity := node; a_operations := "CONNECT";
       a_context := a.(context); a_escapeQuotes := Some a.(insideDoWhen);
       a_skipIsAuthenticated := false; a_skipRoles := false;
       a_where := None;
       a_allow := Some {| ar_parentNode := node; ar_varName := ref;
                          ar_chainStr := getReferenceId ref +:+ node.(name) +:+ pretty i +:+ "_allow" |};
       a_bind := None |}.

Definition preAuth (relatedNode : Node) : list Predicate :=
  reducei (fun (result : list Predicate) (item : Node * Ref) (i : nat) =>
      let (node, ref) := item in
      match node.(auth) with
      | None => result
      | Some _ =>
          match allowPredicate node ref i with
          | None => result
          | Some authPredicate => result ++ [authPredicate]
          end
      end) 0 (nodeMatrix relatedNode) [].

Definition quote : string :=
  if a.(insideDoWhen) then backslash +:+ dquote else dquote.

Definition forbidden : string := quote +:+ AUTH_FORBIDDEN_ERROR +:+ quote.

Definition authClauses (relatedNode : Node) : list Predicate :=
  (fun predicate => PValidate predicate forbidden) <$> preAuth relatedNode.

(** The [if (preAuth.length)] block. *)
Definition preAuthWhere (relatedNode : Node) : list Predicate :=
  match preAuth relatedNode with
  | [] => []
  | _ => [PAnd (authClauses relatedNode)]
  end.

Definition outerWithClause : Clause :=
  With [CAlias (ECollect (EVar nodeRef)) connectedNodesVar;
        CAlias (ECollect (EVar parentNodeRef)) parentNodesVar]
       metaWiths.

Definition innerWithClause : Clause :=
  Unwind [CAlias (EVar connectedNodesVar) nodeRef;
          CAlias (EVar parentNodesVar) nodeRef]
         [[CVar connectedNodesVar; CVar parentNodesVar]].

Definition relationshipPattern : RelationshipPattern :=
  {| source := nodeRef; target := parentNodeRef; rtype := a.(relationField).(type) |}.

Definition mergeOrCreateClause (connect : any) : result Clause :=
  createAsDuplicate <-- get connect "createAsDuplicate";
  if truthy createAsDuplicate
  then Ok (RawCypher [RText "CREATE "; RRef relationship])
  else Ok (Merge relationshipPattern).

(** [connect.edge ?? {}]. *)
Definition edgeOrEmpty (edge : any) : any :=
  match edge with
  | VUndefined | VNull => VObj []
  | _ => edge
  end.

Definition setA (connect : any) : result (option Clause) :=
  if is_truthy_string a.(relationField).(properties) then
    let relationship :=
      List.find (fun x => bool_decide (x.(rel_properties) = a.(relationField).(properties)))
                a.(context).(relationships) in
    edge <-- get connect "edge";
    Ok (Some (RawCypher [RText (fst (createSetRelationshipPropertiesAndParams
        {| s_properties := edgeOrEmpty edge; s_varName := relationshipPattern;
           s_relationship := relationship; s_operation := "CREATE";
           s_callbackBucket := a.(callbackBucket) |}))]))
  else Ok None.

Definition eventWithMetaStr (relatedNode : Node) : string :=
  let incoming := match a.(relationField).(direction) with IN => true | OUT => false end in
  createConnectionEventMetaObject
    {| e_event := "connect";
       e_relVariable := "relationshipVar";
       e_fromVariable := if incoming then a.(varName) else a.(parentVar);
       e_toVariable := if incoming then a.(parentVar) else a.(varName);
       e_typename := a.(relationField).(type);
       e_fromTypename := if incoming then relatedNode.(name) else a.(parentNode).(name);
       e_toTypename := if incoming then a.(parentNode).(name) else relatedNode.(name) |}.

Definition innerSubquery (relatedNode : Node) (mergeOrCreate : Clause)
  (set : option Clause) : Clause :=
  if a.(context).(subscriptionsEnabled) then
    let eventMetaWithClause :=
      With [CAlias (ERaw [RText (eventWithMetaStr relatedNode)]) metaVar] [] in
    CallReturn
      (Concat [Some innerWithClause; Some mergeOrCreate; set; Some eventMetaWithClause])
      [CAlias (ECollect (EVar metaVar)) updateMetaVar]
  else
    CallReturn
      (Concat [Some innerWithClause; Some mergeOrCreate; set])
      [CAlias (ECollect (ERaw [RText "*"])) (NamedVariable "_")].

Definition buildOuterSubquery (inner : Clause) : Clause :=
  if a.(context).(subscriptionsEnabled) then
    let finalWith :=
      With [CAlias (ERaw [RRef metaVar; RText "  "; RRef updateMetaVar])
                   (NamedVariable "*")] [] in
    CallReturn
      (Concat [Some outerWithClause; Some inner; Some finalWith])
      [CAlias (ECollect (EVar metaVar)) (NamedVariable "connect_meta")]
  else
    CallReturn
      (Concat [Some outerWithClause; Some inner])
      [CAlias (ECount (ERaw [RText "*"])) (NamedVariable "_")].

(** The builder part of [createSubqueryContents], up to [outerSubquery];
    [None] is the early return. *)
Definition buildClauses (relatedNode : Node) (connect : any) : result (option Built) :=
  filter <-- whereFilter relatedNode connect;
  match filter with
  | None => Ok None
  | Some wheres =>
      mergeOrCreate <-- mergeOrCreateClause connect;
      set <-- setA connect;
      Ok (Some
        {| matchClause :=
             OptionalMatch nodeRef
               ([CVar <$> namedWithVars] ++ metaWiths)
               (wheres ++ option_list (whereAuthPredicate relatedNode)
                       ++ preAuthWhere relatedNode);
           outerSubquery :=
             buildOuterSubquery (innerSubquery relatedNode mergeOrCreate set) |})
  end.

(** **** [createSubqueryContents]: the lines pushed onto [subquery]

    From here on the function reads [nodeName] and [subquery].  No scope
    declares either of them (the [subquery] of [reducer] is local to its
    blocks, and the runtime has no global of either name), so the first of
    these reads throws a [ReferenceError] and nothing after it is run.  The
    rest of the function is written down as the source has it, as a function
    of the string read from [nodeName] and of the lines found in
    [subquery]; [createSubqueryContents] passes on what the two reads
    give. *)

Definition innerMetaStr : string :=
  if a.(context).(subscriptionsEnabled) then ", connect_meta + meta AS meta" else "".

Section afterTheReads.

Variable nodeName : string.

(** [`WITH ${[...filterMetaVariable(withVars), nodeName].join(", ")}${innerMetaStr}`]. *)
Definition withLine : string :=
  "WITH " +:+ join ", " (filterMetaVariable a.(withVars) ++ [nodeName]) +:+ innerMetaStr.

Definition relValidationStrs (relatedNode : Node) : list string :=
  List.filter nonempty
    ((fun mi : Node * string =>
        createRelationshipValidationString
          {| v_node := fst mi; v_context := a.(context); v_varName := snd mi |})
     <$> [(a.(parentNode), a.(parentVar)); (relatedNode, nodeName)]).

(** The [if (includeRelationshipValidation)] block. *)
Definition relationshipValidation (relatedNode : Node) : list string :=
  if a.(includeRelationshipValidation) then
    match relValidationStrs relatedNode with
    | [] => []
    | strs => [tab +:+ withLine; join newline strs]
    end
  else [].

(** [r.connects.push(recurse[0]); r.params = { ...r.params, ...recurse[1] }]. *)
Definition pushRecurse (r : Res) (args : ConnectArgs) : result Res :=
  rec <-- recurse args;
  Ok {| connects := r.(connects) ++ [fst rec]; params := spread r.(params) (snd rec) |}.

(** [newRefNode.name], read where the relation field is a union. *)
Definition memberName (newRefNode : option Node) : result string :=
  match newRefNode with
  | Some n => Ok n.(name)
  | None => TypeError
  end.

(** The arguments of the recursive call for a key [k] of a nested connect. *)
Definition nestedArgs (relatedNode : Node) (relField : RelationField) (k : string)
  (v : any) (newRefNode : option Node) : result ConnectArgs :=
  member <-- (if relField.(union) then memberName newRefNode else Ok "");
  value' <-- (if relField.(union) then get v member else Ok v);
  Ok {| withVars := a.(withVars) ++ [nodeName];
        value := value';
        varName := nodeName +:+ "_" +:+ k +:+ (if relField.(union) then "_" +:+ member else "");
        relationField := relField;
        parentVar := nodeName;
        refNodes := [newRefNode];
        context := a.(context);
        callbackBucket := a.(callbackBucket);
        labelOverride := Some member;
        parentNode := relatedNode;
        fromCreate := false;
        insideDoWhen := false;
        includeRelationshipValidation := true;
        isFirstLevel := false |}.

(** The arguments of the recursive call for a key [k] of the [_on] entry
    number [onConnectIndex]. *)
Definition onArgs (relatedNode : Node) (relField : RelationField) (onConnectIndex : nat)
  (k : string) (v : any) (newRefNode : option Node) : result ConnectArgs :=
  member <-- (if relField.(union) then memberName newRefNode else Ok "");
  value' <-- (if relField.(union) then get v member else Ok v);
  Ok {| withVars := a.(withVars) ++ [nodeName];
        value := value';
        varName := nodeName +:+ "_on_" +:+ relatedNode.(name) +:+ pretty onConnectIndex
                   +:+ "_" +:+ k;
        relationField := relField;
        parentVar := nodeName;
        refNodes := [newRefNode];
        context := a.(context);
        callbackBucket := a.(callbackBucket);
        labelOverride := Some member;
        parentNode := relatedNode;
        fromCreate := false;
        insideDoWhen := false;
        includeRelationshipValidation := false;
        isFirstLevel := false |}.

(** [c?._on?.[relatedNode.name]]. *)
Definition onEntry (relatedNode : Node) (c : any) : any :=
  opt_get (opt_get c "_on") relatedNode.(name).

(** The [.filter(([k]) => ...)] predicate on the keys of a nested connect. *)
Definition keepKey (relatedNode : Node) (c : any) (k : string) : result bool :=
  if String.eqb k "_on" then Ok false
  else
    match a.(relationField).(interface) with
    | Some _ =>
        onValue <-- determined (onEntry relatedNode c);
        if truthy onValue then
          hit <-- someM (fun onKey => hasOwnProperty onKey k) (arrayify onValue);
          Ok (negb hit)
        else Ok true
    | None => Ok true
    end.

(** The [.reduce] callback on the kept keys. *)
Definition reduceKey (relatedNode : Node) (r : Res) (kv : string * any) : result Res :=
  let (k, v) := kv in
  match List.find (fun x => String.eqb k x.(fieldName)) relatedNode.(relationFields) with
  | None => TypeError
  | Some relField =>
      newRefNodes <--
        (if relField.(union) then
           ks <-- keys v;
           Ok (findNode a.(context) <$> ks)
         else
           match relField.(interface) with
           | Some i => Ok (findNode a.(context) <$> i.(implementations))
           | None => Ok [findNode a.(context) relField.(typeMeta).(tm_name)]
           end);
      foldM (fun r newRefNode =>
               args <-- nestedArgs relatedNode relField k v newRefNode;
               pushRecurse r args) newRefNodes r
  end.

(** The [.reduce] callback on the keys of an [_on] entry. *)
Definition reduceOnKey (relatedNode : Node) (onConnectIndex : nat) (r : Res)
  (kv : string * any) : result Res :=
  let (k, v) := kv in
  match List.find (fun x => String.prefix x.(fieldName) k) relatedNode.(relationFields) with
  | None => TypeError
  | Some relField =>
      newRefNodes <--
        (if relField.(union) then
           ks <-- keys v;
           Ok (findNode a.(context) <$> ks)
         else Ok [findNode a.(context) relField.(typeMeta).(tm_name)]);
      foldM (fun r newRefNode =>
               args <-- onArgs relatedNode relField onConnectIndex k v newRefNode;
               pushRecurse r args) newRefNodes r
  end.

Definition emptyRes : Res := {| connects := []; params := ∅ |}.

(** [subquery.push(r.connects.join("\n")); params = { ...params, ...r.params }]. *)
Definition pushReduced (st : list string * Params) (r : Res) : list string * Params :=
  (fst st ++ [join newline r.(connects)], spread (snd st) r.(params)).

(** The body of [connects.forEach((c) => ...)]; the state is the array
    [subquery] and the variable [params]. *)
Definition connectNested (relatedNode : Node) (st : list string * Params) (c : any)
  : result (list string * Params) :=
  es <-- entries c;
  kept <-- filterM (fun kv => keepKey relatedNode c (fst kv)) es;
  reduced <-- foldM (reduceKey relatedNode) kept emptyRes;
  let st := pushReduced st reduced in
  match a.(relationField).(interface) with
  | Some _ =>
      onValue <-- determined (onEntry relatedNode c);
      if truthy onValue then
        foldMi (fun st onConnect onConnectIndex =>
                  oes <-- entries onConnect;
                  onReduced <-- foldM (reduceOnKey relatedNode onConnectIndex) oes emptyRes;
                  Ok (pushReduced st onReduced))
               0 (arrayify onValue) st
      else Ok st
  | None => Ok st
  end.

(** The [if (connect.connect)] block. *)
Definition nestedConnects (relatedNode : Node) (connect : any)
  (st : list string * Params) : result (list string * Params) :=
  nested <-- get connect "connect";
  if truthy nested
  then foldM (connectNested relatedNode) (arrayify nested) st
  else Ok st.

Definition bindAuth (node : Node) (i : nat) : string * Params :=
  createAuthAndParams
    {| a_entity := node; a_operations := "CONNECT";
       a_context := a.(context); a_escapeQuotes := Some a.(insideDoWhen);
       a_skipIsAuthenticated := true; a_skipRoles := true;
       a_where := None; a_allow := None;
       a_bind := Some {| ar_parentNode := node; ar_varName := nodeName;
                         ar_chainStr := nodeName +:+ node.(name) +:+ pretty i +:+ "_bind" |} |}.

Definition postAuth (relatedNode : Node) : Res :=
  reducei (fun (result : Res) (node : Node) (i : nat) =>
      match node.(auth) with
      | None => result
      | Some _ =>
          let (str, p) := bindAuth node i in
          if nonempty str
          then {| connects := result.(connects) ++ [str];
                  params := spread result.(params) p |}
          else result
      end)
    0 ((if negb a.(fromCreate) then [a.(parentNode)] else []) ++ [relatedNode]) emptyRes.

(** The validation call over the bind predicates. *)
Definition validateCall (predicates : list string) : string :=
  tab +:+ "CALL apoc.util.validate(NOT (" +:+ join " AND " predicates +:+ "), "
      +:+ forbidden +:+ ", [0])".

(** The [if (postAuth.connects.length)] block: the lines it pushes. *)
Definition postAuthLines (relatedNode : Node) : list string :=
  match (postAuth relatedNode).(connects) with
  | [] => []
  | predicates =>
      [tab +:+ "WITH " +:+ join ", " (a.(withVars) ++ [nodeName]);
       validateCall predicates]
  end.

Definition postAuthParams (relatedNode : Node) (ps : Params) : Params :=
  match (postAuth relatedNode).(connects) with
  | [] => ps
  | _ => spread ps (postAuth relatedNode).(params)
  end.

(** The last lines of the subquery. *)
Definition returnLines (relatedNode : Node) : list string :=
  if a.(context).(subscriptionsEnabled) then
    ["WITH collect(meta) AS connect_meta";
     "RETURN REDUCE(m=[],m1 IN connect_meta | m+m1 ) as connect_meta"]
  else
    [tab +:+ "RETURN count(*) AS connect_" +:+ a.(varName) +:+ "_" +:+ relatedNode.(name)].

End afterTheReads.

(** [relatedNode] is [undefined] when the schema lookup that produced it
    found nothing; its first use then throws.  The clause objects are built
    first: building them can throw and decides the early return.  They are
    not used after that.  Then [nodeName] is read where the relationship
    validation is included (in [matrixItems]), and [subquery] at the first
    push otherwise: neither is declared, and the read throws.  Only a run
    that got past both reads would return the lines pushed onto [subquery],
    joined, and [params]. *)
Definition createSubqueryContents (relatedNode : option Node) (connect : any)
  (index : nat) : result SubqueryContents :=
  match relatedNode with
  | None => TypeError
  | Some relatedNode =>
      built <-- buildClauses relatedNode connect;
      match built with
      | None => Ok {| subquery := ""; sq_params := ∅ |}
      | Some _ =>
          names <--
            (if a.(includeRelationshipValidation) then
               nodeName <-- undeclared "nodeName";
               pushed <-- undeclared "subquery";
               Ok (nodeName, pushed)
             else
               pushed <-- undeclared "subquery";
               nodeName <-- undeclared "nodeName";
               Ok (nodeName, pushed));
          let nodeName : string := fst names in
          let pushed : list string := snd names in
          st <-- nestedConnects nodeName relatedNode connect
                   (pushed ++ relationshipValidation nodeName relatedNode
                           ++ [withLine nodeName], ∅);
          Ok {| subquery :=
                  join newline (fst st ++ postAuthLines nodeName relatedNode
                                       ++ returnLines relatedNode);
                sq_params := postAuthParams nodeName relatedNode (snd st) |}
      end
  end.

(** **** [reducer] *)

Definition parentWhereAuth : string * Params :=
  createAuthAndParams
    {| a_entity := a.(parentNode); a_operations := "CONNECT";
       a_context := a.(context); a_escapeQuotes := None;
       a_skipIsAuthenticated := false; a_skipRoles := false;
       a_where := Some {| aw_varName := a.(parentVar); aw_node := a.(parentNode) |};
       a_allow := None; a_bind := None |}.

(** The [if (parentNode.auth && !fromCreate)] block. *)
Definition pushParentWhere (res : Res) : Res :=
  match a.(parentNode).(auth) with
  | Some _ =>
      if negb a.(fromCreate) then
        let (str, p) := parentWhereAuth in
        if nonempty str then
          {| connects := res.(connects)
                           ++ ["WITH " +:+ join ", " a.(withVars); "WHERE " +:+ str];
             params := spread res.(params) p |}
        else res
      else res
  | None => res
  end.

(** The [if (isFirstLevel)] block. *)
Definition pushFirstLevel (res : Res) : Res :=
  if a.(isFirstLevel)
  then {| connects := res.(connects) ++ ["WITH " +:+ join ", " a.(withVars)];
          params := res.(params) |}
  else res.

(** The separator between the subqueries of the implementations. *)
Definition implementationSeparator : string :=
  if a.(context).(subscriptionsEnabled) then
    let withStatement :=
      "WITH " +:+ join ", " (filterMetaVariable a.(withVars))
              +:+ ", connect_meta + meta AS meta" in
    newline +:+ "}" +:+ newline +:+ withStatement +:+ newline +:+ "CALL {" +:+ newline +:+ tab
  else
    newline +:+ "}" +:+ newline +:+ "CALL {" +:+ newline +:+ tab.

(** The body of [refNodes.forEach((refNode, i) => ...)]; the state is the
    array [subqueries] and [res.params]. *)
Definition pushImplementation (connect : any) (acc : list string * Params)
  (refNode : option Node) (i : nat) : result (list string * Params) :=
  sq <-- createSubqueryContents refNode connect i;
  if nonempty sq.(subquery)
  then Ok (fst acc ++ [sq.(subquery)], spread (snd acc) sq.(sq_params))
  else Ok acc.

(** The strings pushed onto [inner], with the parameters merged so far. *)
Definition innerOf (connect : any) (index : nat) (ps : Params)
  : result (list string * Params) :=
  match a.(relationField).(interface) with
  | Some _ =>
      sp <-- foldMi (pushImplementation connect) 0 a.(refNodes) ([], ps);
      Ok (match fst sp with
          | [] => []
          | subqueries => [join implementationSeparator subqueries]
          end, snd sp)
  | None =>
      sq <-- createSubqueryContents (mjoin (head a.(refNodes))) connect index;
      Ok ([sq.(subquery)], spread ps sq.(sq_params))
  end.

(** The [if (inner.length > 0)] block. *)
Definition pushInner (res : Res) (inner : list string) (ps : Params) : Res :=
  match inner with
  | [] => {| connects := res.(connects); params := ps |}
  | _ =>
      {| connects :=
           res.(connects) ++ ["CALL {"] ++ inner ++ ["}"]
             ++ (if a.(context).(subscriptionsEnabled)
                 then ["WITH connect_meta + meta AS meta, "
                         +:+ join ", " (filterMetaVariable a.(withVars))]
                 else []);
         params := ps |}
  end.

Definition reducer (res : Res) (connect : any) (index : nat) : result Res :=
  let res := pushFirstLevel (pushParentWhere res) in
  ip <-- innerOf connect index res.(params);
  Ok (pushInner res (fst ip) (snd ip)).

(** [(relationField.typeMeta.array ? value : [value]) as any[]]: [reduce]
    is only defined on arrays. *)
Definition connectValues : result (list any) :=
  if a.(relationField).(typeMeta).(tm_array) then
    match a.(value) with
    | VArr xs => Ok xs
    | _ => TypeError
    end
  else Ok [a.(value)].

(** The body of [createConnectAndParams]. *)
Definition createConnectAndParams_body : result (string * Params) :=
  values <-- connectValues;
  res <-- foldMi reducer 0 values emptyRes;
  Ok (join newline res.(connects), res.(params)).

End createConnectAndParams.

(** [createConnectAndParams]: the recursion goes down the nested [connect]
    inputs; [fuel] bounds its depth. *)
Fixpoint createConnectAndParams `{!Imports} (fuel : nat)
  (a : ConnectArgs) : result (string * Params) :=
  match fuel with
  | O => NoFuel
  | S fuel' => createConnectAndParams_body (createConnectAndParams fuel') a
  end.

End Connect.

(* ===================================================================== *)
(** ** Custom-resolver metadata and the deprecation warning *)
(* ===================================================================== *)

Module CustomResolver.

(** The parts of the GraphQL document nodes that [getCustomResolverMeta] reads. *)
Inductive ValueNode :=
| StringValue (value : string)
| ListValue (values : list ValueNode)
| OtherValue (value : string).

Record ArgumentNode := {
  arg_name : string;
  arg_value : ValueNode;
}.

Record DirectiveNode := {
  dir_name : string;
  arguments : option (list ArgumentNode);
}.

Record FieldDefinitionNode := {
  field_name : string;
  directives : option (list DirectiveNode);
}.

Inductive Kind := OBJECT_TYPE_DEFINITION | INTERFACE_TYPE_DEFINITION.

Record TypeDefinitionNode := {
  kind : Kind;
  type_name : string;
  fields : option (list FieldDefinitionNode);
}.

Record UnionTypeDefinitionNode := {
  union_name : string;
  types : list string;
}.

Record Args := {
  field : FieldDefinitionNode;
  object : TypeDefinitionNode;
  objects : list TypeDefinitionNode;
  interfaces : list TypeDefinitionNode;
  unions : list UnionTypeDefinitionNode;
  customResolvers : any;
  interfaceField : option FieldDefinitionNode;
}.

(** [requiredFields] is a resolve tree per required field. *)
Record CustomResolverMeta := {
  requiredFields : any;
}.

(** How a call ends: it returns (possibly [undefined]) or throws.
    [Undetermined] is no outcome of the function: it marks a call whose
    resolver lookup reads a property that the model does not describe. *)
Inductive outcome :=
| Returned (meta : option CustomResolverMeta)
| Thrown (message : string)
| Undetermined.

(** Parsing the selection-set text and turning it into resolve trees
    ([parse] followed by [selectionSetToResolveTree]) is a collaborator, as
    is [removeDuplicates]; either of the first two may throw. *)
Class Graphql := {
  parseToResolveTree :
    list FieldDefinitionNode -> list TypeDefinitionNode -> list TypeDefinitionNode ->
    list UnionTypeDefinitionNode -> string -> any + string;
  removeDuplicates : list string -> list string;
}.

Definition DEPRECATION_WARNING : string :=
  "The @computed directive has been deprecated and will be removed in version 4.0.0. Please use "
  +:+ "the @customResolver directive instead. More information can be found at "
  +:+ "https://neo4j.com/docs/graphql-manual/current/guides/v4-migration/#_computed_renamed_to_customresolver.".

(** The module-level state: the flag [deprecationWarningShown] and what
    [console.warn] has printed so far, oldest first. *)
Record ModuleState := {
  deprecationWarningShown : bool;
  console : list string;
}.

(** The state when the module is loaded. *)
Definition initial : ModuleState :=
  {| deprecationWarningShown := false; console := [] |}.

(** [f?.directives?.find((x) => x.name.value === n)]. *)
Definition findDirective (n : string) (f : option FieldDefinitionNode) : option DirectiveNode :=
  match f with
  | Some {| directives := Some ds |} => List.find (fun x => String.eqb x.(dir_name) n) ds
  | _ => None
  end.

(** [d?.arguments?.find((arg) => arg.name.value === n)]. *)
Definition findArgument (n : string) (d : option DirectiveNode) : option ArgumentNode :=
  match d with
  | Some {| arguments := Some args |} => List.find (fun arg => String.eqb arg.(arg_name) n) args
  | _ => None
  end.

(** [x || y] on two possibly undefined objects. *)
Definition orElse {A : Type} (x y : option A) : option A :=
  match x with
  | Some _ => x
  | None => y
  end.

Definition deprecatedDirective (args : Args) : option DirectiveNode :=
  orElse (findDirective "computed" (Some args.(field)))
         (findDirective "computed" args.(interfaceField)).

Definition directive (args : Args) : option DirectiveNode :=
  orElse (findDirective "customResolver" (Some args.(field)))
         (findDirective "customResolver" args.(interfaceField)).

(** The first statement of the function: warn once, then remember. *)
Definition warnDeprecated (args : Args) (st : ModuleState) : ModuleState :=
  match deprecatedDirective args with
  | Some _ =>
      if negb st.(deprecationWarningShown)
      then {| deprecationWarningShown := true;
              console := st.(console) ++ [DEPRECATION_WARNING] |}
      else st
  | None => st
  end.

Definition valueText (v : ValueNode) : string :=
  match v with
  | StringValue s | OtherValue s => s
  | ListValue _ => ""
  end.

Section metadata.

Context `{!Graphql}.

Definition resolveTreeOf (args : Args) (selection : string) : any + string :=
  parseToResolveTree (default [] args.(object).(fields)) args.(objects)
    args.(interfaces) args.(unions) ("{ " +:+ selection +:+ " }").

(** What follows the resolver check: the [requires] or [from] argument is
    parsed into resolve trees. *)
Definition requiredFieldsOf (args : Args) : outcome :=
  match orElse (findArgument "requires" (directive args))
               (findArgument "from" (deprecatedDirective args)) with
  | None => Returned None
  | Some directiveFromArgument =>
      match directiveFromArgument.(arg_value) with
      | StringValue s =>
          match resolveTreeOf args s with
          | inl tree =>
              if truthy tree then Returned (Some {| requiredFields := tree |})
              else Returned None
          | inr message => Thrown message
          end
      | ListValue values =>
          match resolveTreeOf args (join " " (removeDuplicates (valueText <$> values))) with
          | inl tree =>
              if truthy tree then Returned (Some {| requiredFields := tree |})
              else Returned None
          | inr message => Thrown message
          end
      | OtherValue _ => Returned None
      end
  end.

(** [object.kind !== Kind.INTERFACE_TYPE_DEFINITION && directive &&
    !customResolvers?.[field.name.value]]: the resolver is looked up through
    the prototype chain of [customResolvers]. *)
Definition missingResolver (args : Args) : result bool :=
  match args.(object).(kind), directive args with
  | OBJECT_TYPE_DEFINITION, Some _ =>
      resolver <-- read args.(customResolvers) args.(field).(field_name);
      Ok (negb (truthy resolver))
  | _, _ => Ok false
  end.

(** What the function returns or throws; the module state plays no part in it. *)
Definition metaOf (args : Args) : outcome :=
  match directive args, deprecatedDirective args with
  | None, None => Returned None
  | _, _ =>
      match missingResolver args with
      | Ok true =>
          Thrown ("Custom resolver for " +:+ args.(field).(field_name)
                    +:+ " has not been provided")
      | Ok false => requiredFieldsOf args
      | _ => Undetermined
      end
  end.

(** One call: the outcome and the module state it leaves behind. *)
Definition getCustomResolverMeta (args : Args) (st : ModuleState) : outcome * ModuleState :=
  (metaOf args, warnDeprecated args st).

(** A sequence of calls within one process: the outcomes, and the final state. *)
Fixpoint calls (argss : list Args) (st : ModuleState) : list outcome * ModuleState :=
  match argss with
  | [] => ([], st)
  | args :: rest =>
      let (o, st') := getCustomResolverMeta args st in
      let (os, st'') := calls rest st' in
      (o :: os, st'')
  end.

End metadata.

(** The number of times the deprecation warning was printed. *)
Definition warnings (st : ModuleState) : nat :=
  length (List.filter (String.eqb DEPRECATION_WARNING) st.(console)).

(** The flag tells how often the warning was printed. *)
Definition counted (st : ModuleState) : Prop :=
  warnings st = if st.(deprecationWarningShown) then 1 else 0.

End CustomResolver.

(* ===================================================================== *)
(** ** Sorting and pagination of a root connection read *)
(* ===================================================================== *)

Module ReadSort.

(** Modelled from the spec: the read/projection compiler is not among the
    sources (only its expected output is); this is the sorting rule of the
    specification.  A field is stored, or computed from a custom
    expression; a read sorts on some fields, may paginate, and selects
    fields.  The program is a sequence of steps: computed fields that the
    sort needs are projected first, then come the sort and the pagination,
    and the selection is projected last, where a computed field that was
    already projected is read like a stored one. *)

Inductive FieldKind := Stored | Computed (statement : string).

Record Field := {
  f_name : string;
  f_kind : FieldKind;
}.

Inductive Order := ASC | DESC.

Record ReadOperation := {
  sort : list (Field * Order);
  offset : option nat;
  limit : option nat;
  selection : list Field;
}.

Definition isComputed (f : Field) : bool :=
  match f.(f_kind) with
  | Computed _ => true
  | Stored => false
  end.

(** A step of the program.  [Project] lists, for each projected field,
    whether its custom expression is evaluated in this step. *)
Inductive Step :=
| Match
| Project (columns : list (string * bool))
| OrderBy (keys : list (string * Order))
| Skip (offset : nat)
| Limit (limit : nat).

Definition sortFields (op : ReadOperation) : list Field := fst <$> op.(sort).

Definition sortedComputed (op : ReadOperation) : list Field :=
  List.filter isComputed (sortFields op).

Definition inSort (op : ReadOperation) (f : Field) : bool :=
  existsb (fun g => String.eqb g.(f_name) f.(f_name)) (sortedComputed op).

(** The projection made before the sort: the computed fields sorted on. *)
Definition preProjection (op : ReadOperation) : list Step :=
  match sortedComputed op with
  | [] => []
  | fs => [Project ((fun f => (f.(f_name), true)) <$> fs)]
  end.

Definition sortSteps (op : ReadOperation) : list Step :=
  match op.(sort) with
  | [] => []
  | keys => [OrderBy ((fun k => ((fst k).(f_name), snd k)) <$> keys)]
  end.

Definition pagination (op : ReadOperation) : list Step :=
  option_list (Skip <$> op.(offset)) ++ option_list (Limit <$> op.(limit)).

(** The final projection evaluates the computed fields not sorted on. *)
Definition finalProjection (op : ReadOperation) : Step :=
  Project ((fun f => (f.(f_name), isComputed f && negb (inSort op f))) <$> op.(selection)).

Definition translateRead (op : ReadOperation) : list Step :=
  [Match] ++ preProjection op ++ sortSteps op ++ pagination op ++ [finalProjection op].

(** The step materializes the computed field [n]. *)
Definition materializes (n : string) (s : Step) : bool :=
  match s with
  | Project columns => existsb (fun c => String.eqb (fst c) n && snd c) columns
  | _ => false
  end.

Definition isOrderBy (s : Step) : bool :=
  match s with OrderBy _ => true | _ => false end.

Definition isPagination (s : Step) : bool :=
  match s with Skip _ | Limit _ => true | _ => false end.

End ReadSort.

(* ===================================================================== *)
(** ** Executing a merge *)
(* ===================================================================== *)

Module Graph.

(** Modelled from the spec: the database that executes the compiled program
    is not among the sources.  Following the specification of connect, a
    merge reuses an existing edge of the same type between the same two
    nodes if there is one and adds the edge otherwise.  Nodes are known by
    their identities; raw clauses are text and are not executed here. *)

Record Edge := {
  from : string;
  label : string;
  to : string;
}.

Definition sameEdge (e1 e2 : Edge) : bool :=
  String.eqb e1.(from) e2.(from) && String.eqb e1.(label) e2.(label)
  && String.eqb e1.(to) e2.(to).

(** The number of edges of the type of [e] between its two nodes. *)
Definition edgesBetween (e : Edge) (g : list Edge) : nat :=
  length (List.filter (sameEdge e) g).

Definition mergeEdge (e : Edge) (g : list Edge) : list Edge :=
  if existsb (sameEdge e) g then g else g ++ [e].

(** The edge a relationship pattern stands for, once its two node
    references are bound to nodes. *)
Definition edgeOf (binding : Ref -> string) (p : RelationshipPattern) : Edge :=
  {| from := binding p.(source); label := p.(rtype); to := binding p.(target) |}.

Definition execute (binding : Ref -> string) (c : Clause) (g : list Edge)
  : option (list Edge) :=
  match c with
  | Merge p => Some (mergeEdge (edgeOf binding p) g)
  | _ => None
  end.

End Graph.

(* ===================================================================== *)
(** ** Notions used to state the properties *)
(* ===================================================================== *)

Module Notions.

Import Connect.

(** What one entry adds to the accumulator of [reducer]. *)
Definition appendRes (r e : Res) : Res :=
  {| connects := r.(connects) ++ e.(connects);
     params := spread r.(params) e.(params) |}.



(** What a match clause matches: its pattern and its predicates. *)
Definition matched (c : Clause) : option (Ref * list Predicate) :=
  match c with
  | OptionalMatch node _ wheres => Some (node, wheres)
  | _ => None
  end.

(** The same collaborators with another builder of the authorization
    predicates that are attached to clauses. *)
Definition withAuthPredicates (f : AuthArgs Ref -> option Predicate) (I : Imports)
  : Imports :=
  {| createWherePredicate := I.(@createWherePredicate);
     createAuthPredicates := f;
     createAuthAndParams := I.(@createAuthAndParams);
     createSetRelationshipPropertiesAndParams :=
       I.(@createSetRelationshipPropertiesAndParams);
     createRelationshipValidationString := I.(@createRelationshipValidationString);
     createConnectionEventMetaObject := I.(@createConnectionEventMetaObject);
     filterMetaVariable := I.(@filterMetaVariable);
     getLabelString := I.(@getLabelString);
     AUTH_FORBIDDEN_ERROR := I.(@AUTH_FORBIDDEN_ERROR) |}.

(** The same collaborators with another builder of the authorization
    conditions that are rendered as text. *)
Definition withAuthAndParams (f : AuthArgs string -> string * Params) (I : Imports)
  : Imports :=
  {| createWherePredicate := I.(@createWherePredicate);
     createAuthPredicates := I.(@createAuthPredicates);
     createAuthAndParams := f;
     createSetRelationshipPropertiesAndParams :=
       I.(@createSetRelationshipPropertiesAndParams);
     createRelationshipValidationString := I.(@createRelationshipValidationString);
     createConnectionEventMetaObject := I.(@createConnectionEventMetaObject);
     filterMetaVariable := I.(@filterMetaVariable);
     getLabelString := I.(@getLabelString);
     AUTH_FORBIDDEN_ERROR := I.(@AUTH_FORBIDDEN_ERROR) |}.

(** The first name that [createSubqueryContents] reads once the clause
    objects are built. *)
Definition firstRead (a : ConnectArgs) : string :=
  if a.(includeRelationshipValidation) then "nodeName" else "subquery".

(** Whether the filter block takes the early return, whatever predicates
    it builds otherwise. *)
Definition skips {A : Type} (filter : result (option A)) : result bool :=
  x <-- filter; Ok (match x with None => true | Some _ => false end).

(** The subquery of an implementation that is skipped. *)
Definition nothing : SubqueryContents := {| subquery := ""; sq_params := ∅ |}.

End Notions.

(* ===================================================================== *)
(** ** A sample schema *)
(* ===================================================================== *)

Module Sample.

Import Connect.

(** Movies and series are productions; actors act in productions. *)
Definition Production : InterfaceField := {| implementations := ["Movie"; "Series"] |}.

Definition actedIn : RelationField :=
  {| fieldName := "actedIn"; type := "ACTED_IN"; direction := OUT;
     properties := Some "ActedIn"; union := false; interface := Some Production;
     typeMeta := {| tm_name := "Production"; tm_array := true |} |}.

Definition actors : RelationField :=
  {| fieldName := "actors"; type := "ACTED_IN"; direction := IN;
     properties := Some "ActedIn"; union := false; interface := None;
     typeMeta := {| tm_name := "Actor"; tm_array := true |} |}.

Definition rules : any := VObj [("rules", VArr [VObj [("operations", VArr [VStr "CONNECT"])]])].

Definition Movie : Node :=
  {| name := "Movie"; auth := Some rules; relationFields := [actors] |}.

Definition Series : Node :=
  {| name := "Series"; auth := None; relationFields := [actors] |}.

Definition Actor : Node :=
  {| name := "Actor"; auth := Some rules; relationFields := [actedIn] |}.

Definition ActedIn : Relationship :=
  {| rel_name := "ActedIn"; rel_properties := Some "ActedIn" |}.

Definition sampleContext (subscriptions : bool) : Context :=
  {| subscriptionsEnabled := subscriptions;
     nodes := [Movie; Series; Actor];
     relationships := [ActedIn] |}.

(** Simple collaborators: a filter is rendered key by key, an authorization
    rule by the name of its chain. *)
Definition renderWhere (w : WhereArgs) : option Predicate :=
  match w.(w_whereInput) with
  | [] => None
  | kvs =>
      Some (POpaque (join " AND "
        ((fun kv => getReferenceId w.(w_targetElement) +:+ "." +:+ fst kv +:+ " = $param")
         <$> kvs)))
  end.

Definition renderAuthPredicate (x : AuthArgs Ref) : option Predicate :=
  match x.(a_where), x.(a_allow) with
  | Some w, _ => Some (POpaque (getReferenceId w.(aw_varName) +:+ ".owner = $auth.jwt.sub"))
  | None, Some r => Some (POpaque (r.(ar_chainStr) +:+ " = $auth.jwt.sub"))
  | None, None => None
  end.

Definition renderAuth (x : AuthArgs string) : string * Params :=
  match x.(a_where), x.(a_bind) with
  | Some w, _ => (w.(aw_varName) +:+ ".owner = $auth.jwt.sub", {[ "auth" := VObj [] ]})
  | None, Some r =>
      (r.(ar_varName) +:+ ".owner = $" +:+ r.(ar_chainStr),
       {[ r.(ar_chainStr) := VStr "sub" ]})
  | None, None => ("", ∅)
  end.

Definition sampleImports : Imports := {|
  createWherePredicate := renderWhere;
  createAuthPredicates := renderAuthPredicate;
  createAuthAndParams := renderAuth;
  createSetRelationshipPropertiesAndParams := fun x => ("SET edge.screenTime = $screenTime", ∅);
  createRelationshipValidationString := fun x => "";
  createConnectionEventMetaObject := fun x => "{ event: " +:+ x.(e_event) +:+ " }";
  filterMetaVariable := List.filter (fun v => negb (String.eqb v "meta"));
  getLabelString := fun n ctx => ":" +:+ n.(name);
  AUTH_FORBIDDEN_ERROR := "@neo4j/graphql/FORBIDDEN";
|}.

(** Connecting actors to a movie: [updateMovies(connect: { actors: value })]. *)
Definition connectActors (subscriptions create : bool) (v : any) : ConnectArgs :=
  {| withVars := ["this"]; value := v; varName := "this_connect_actors";
     relationField := actors; parentVar := "this"; refNodes := [Some Actor];
     context := sampleContext subscriptions; callbackBucket := VObj [];
     labelOverride := None; parentNode := Movie; fromCreate := create;
     insideDoWhen := false; includeRelationshipValidation := false;
     isFirstLevel := true |}.

(** Connecting productions to an actor: [updateActors(connect: { actedIn: value })]. *)
Definition connectActedIn (v : any) : ConnectArgs :=
  {| withVars := ["this"]; value := v; varName := "this_connect_actedIn";
     relationField := actedIn; parentVar := "this";
     refNodes := [Some Movie; Some Series];
     context := sampleContext false; callbackBucket := VObj [];
     labelOverride := None; parentNode := Actor; fromCreate := false;
     insideDoWhen := false; includeRelationshipValidation := false;
     isFirstLevel := true |}.

Definition whereName (n : string) : any :=
  VObj [("node", VObj [("name", VStr n)])].

(** [{ where: { node: { name } }, edge: { screenTime } }]. *)
Definition connectByName (n : string) (screenTime : Z) : any :=
  VObj [("where", whereName n); ("edge", VObj [("screenTime", VNum screenTime)])].

(** The same entry with [createAsDuplicate: true]. *)
Definition connectDuplicate (n : string) (screenTime : Z) : any :=
  VObj [("where", whereName n); ("edge", VObj [("screenTime", VNum screenTime)]);
        ("createAsDuplicate", VBool true)].

(** The same entry with [asDuplicate: true], the flag of the connect input
    in the integration tests. *)
Definition connectAsDuplicate (n : string) (screenTime : Z) : any :=
  VObj [("where", whereName n); ("edge", VObj [("screenTime", VNum screenTime)]);
        ("asDuplicate", VBool true)].

(** [{ where: { node: { _on: { Series: { title } } } } }]. *)
Definition connectSeriesOnly : any :=
  VObj [("where", VObj [("node",
     VObj [("_on", VObj [("Series", VObj [("title", VStr "s")])])])])].

(** A node filter that names [title] in [_on] first and at the root after. *)
Definition onBeforeRoot : any :=
  VObj [("_on", VObj [("Movie", VObj [("title", VStr "x")])]); ("title", VStr "y")].

(** A node filter whose [_on] entry overrides [released] with [false]. *)
Definition overrideWithFalse : any :=
  VObj [("released", VBool true); ("_on", VObj [("Movie", VObj [("released", VBool false)])])].

End Sample.

(* ===================================================================== *)
(** ** The selection set of [requires] as resolve trees *)
(* ===================================================================== *)

Module ResolveTrees.

(** The parts of the parsed selection set and of the type definitions that
    [selectionSetToResolveTree] and the functions under it read. *)

(** A type reference: a named type under list and non-null wrappers. *)
Inductive TypeNode :=
| NamedType (name : string)
| ListType (type : TypeNode)
| NonNullType (type : TypeNode).

(** A selection.  The selection set of a field is optional; that of an
    inline fragment is tested for presence by the code, and so is the type
    condition. *)
Inductive SelectionNode :=
| Field (name : string) (selectionSet : option (list SelectionNode))
| FragmentSpread (name : string)
| InlineFragment (typeCondition : option string)
    (selectionSet : option (list SelectionNode)).

(** A definition of a document: an operation with its selection set, or a
    definition of any other kind. *)
Inductive DefinitionNode :=
| OperationDefinition (selectionSet : list SelectionNode)
| OtherDefinition.

Record DocumentNode := {
  definitions : list DefinitionNode;
}.

Record FieldDefinitionNode := {
  fd_name : string;
  fd_type : TypeNode;
}.

(** An object or interface type definition. *)
Record TypeDefinitionNode := {
  td_name : string;
  td_fields : option (list FieldDefinitionNode);
}.

Record UnionTypeDefinitionNode := {
  ud_name : string;
  ud_types : option (list string);
}.

(** The argument of [generateResolveTree], [{ name, fieldsByTypeName }]. *)
Record ResolveTreeArgs := {
  rt_name : string;
  rt_fieldsByTypeName : obj;
}.

(** [generateResolveTree] is imported; it is taken as it is called. *)
Class Imports := {
  generateResolveTree : ResolveTreeArgs -> any;
}.

(** A call returns ([inl]) or throws an [Error] with a message ([inr]). *)
Definition INVALID_SELECTION_SET_ERROR : string :=
  "Invalid selection set passed to @customResolver required".

Definition FRAGMENT_SPREAD_ERROR : string :=
  "Fragment spreads are not supported in customResolver requires".

Definition FRAGMENT_TYPE_ERROR : string := "Cannot find fragment type".

Definition NESTED_TYPE_ERROR : string :=
  "Cannot find the type of a related field that is required by a custom resolver".

(** [getNestedType] on a type that is there: a wrapper always carries the
    type it wraps, so the recursion ends at the named type. *)
Fixpoint namedTypeOf (type : TypeNode) : string :=
  match type with
  | NamedType name => name
  | ListType type' | NonNullType type' => namedTypeOf type'
  end.

Definition getNestedType (type : option TypeNode) : string + string :=
  match type with
  | None => inr NESTED_TYPE_ERROR
  | Some type => inl (namedTypeOf type)
  end.

(** [xs.reduce(f, init)] with a callback that may throw. *)
Fixpoint reduceE {A B : Type} (f : B -> A -> B + string) (xs : list A) (acc : B)
  : B + string :=
  match xs with
  | [] => inl acc
  | x :: xs' =>
      match f acc x with
      | inl acc' => reduceE f xs' acc'
      | inr message => inr message
      end
  end.

Section nestedSelectionSetToResolveTrees.

Context `{!Imports}.

Variables objects interfaces : list TypeDefinitionNode.
Variable unions : list UnionTypeDefinitionNode.

(** [[...objects, ...interfaces].find((obj) => obj.name.value === n)?.fields]. *)
Definition fieldsOfType (n : string) : option (list FieldDefinitionNode) :=
  match List.find (fun obj => String.eqb obj.(td_name) n) (objects ++ interfaces) with
  | Some obj => obj.(td_fields)
  | None => None
  end.

(** [unions.find((union) => union.name.value === fieldType)?.types]. *)
Definition unionImplementations (fieldType : string) : option (list string) :=
  match List.find (fun union => String.eqb union.(ud_name) fieldType) unions with
  | Some union => union.(ud_types)
  | None => None
  end.

(** The fields of the type of a related field: those of the object or
    interface of that name or else, for a union, those of all its members
    (an array, even an empty one, is truthy). *)
Definition innerObjectFields (fieldType : string) : option (list FieldDefinitionNode) :=
  match fieldsOfType fieldType with
  | Some fields => Some fields
  | None =>
      match unionImplementations fieldType with
      | Some implementations =>
          Some (flat_map (fun implementation => default [] (fieldsOfType implementation))
                  implementations)
      | None => None
      end
  end.

(** [{ ...acc, [outerFieldType]: { ...acc[outerFieldType], ...tree } }].
    (A key that [acc] does not own reads as [undefined] or as a function of
    the prototype; spreading either adds nothing.) *)
Definition setUnder (outerFieldType : string) (tree : any) (acc : obj) : obj :=
  obj_set outerFieldType
    (VObj (obj_spread (obj_spread [] (opt_get (VObj acc) outerFieldType)) tree)) acc.

(** The callback of [selectionSet.selections.reduce]; the recursive call of
    [nestedSelectionSetToResolveTrees] is the inner fold. *)
Fixpoint reduceSelection (objectFields : list FieldDefinitionNode)
  (outerFieldType : option string) (acc : obj) (selection : SelectionNode)
  {struct selection} : obj + string :=
  let nested :=
    fix nested (objectFields : list FieldDefinitionNode) (outerFieldType : option string)
      (selections : list SelectionNode) (acc : obj) {struct selections} : obj + string :=
      match selections with
      | [] => inl acc
      | selection :: rest =>
          match reduceSelection objectFields outerFieldType acc selection with
          | inl acc' => nested objectFields outerFieldType rest acc'
          | inr message => inr message
          end
      end in
  match selection with
  | FragmentSpread _ => inr FRAGMENT_SPREAD_ERROR
  | InlineFragment typeCondition selectionSet =>
      match selectionSet with
      | None => inl acc
      | Some selections =>
          match nested objectFields None selections [] with
          | inr message => inr message
          | inl nestedResolveTree =>
              if Connect.is_truthy_string typeCondition
              then inl (obj_set (default "" typeCondition) (VObj nestedResolveTree) acc)
              else inr FRAGMENT_TYPE_ERROR
          end
      end
  | Field name selectionSet =>
      match
        match selectionSet with
        | None => inl []
        | Some selections =>
            let field :=
              List.find (fun field => String.eqb field.(fd_name) name) objectFields in
            match getNestedType (fd_type <$> field) with
            | inr message => inr message
            | inl fieldType =>
                match innerObjectFields fieldType with
                | None => inr ""
                | Some inner => nested inner (Some fieldType) selections []
                end
            end
        end
      with
      | inr message => inr message
      | inl nestedResolveTree =>
          let tree :=
            generateResolveTree
              {| rt_name := name; rt_fieldsByTypeName := nestedResolveTree |} in
          if Connect.is_truthy_string outerFieldType
          then inl (setUnder (default "" outerFieldType) tree acc)
          else inl (obj_spread acc tree)
      end
  end.

Definition nestedSelectionSetToResolveTrees (objectFields : list FieldDefinitionNode)
  (selectionSet : list SelectionNode) (outerFieldType : option string) : obj + string :=
  reduceE (reduceSelection objectFields outerFieldType) selectionSet [].

Definition selectionSetToResolveTree (objectFields : list FieldDefinitionNode)
  (document : DocumentNode) : obj + string :=
  match document.(definitions) with
  | [selectionSetDocument] =>
      match selectionSetDocument with
      | OperationDefinition selectionSet =>
          nestedSelectionSetToResolveTrees objectFields selectionSet None
      | OtherDefinition => inr INVALID_SELECTION_SET_ERROR
      end
  | _ => inr INVALID_SELECTION_SET_ERROR
  end.

End nestedSelectionSetToResolveTrees.

(** **** Notions used to state the properties *)

(** The wrappers of a type reference, outermost first. *)
Inductive Wrapper := AsList | AsNonNull.

Definition wrap (ws : list Wrapper) (type : TypeNode) : TypeNode :=
  fold_right (fun w t => match w with AsList => ListType t | AsNonNull => NonNullType t end)
    type ws.

(** A fragment spread occurs somewhere in the selections. *)
Fixpoint spreads (selection : SelectionNode) : bool :=
  let anyOf :=
    fix anyOf (selections : list SelectionNode) : bool :=
      match selections with
      | [] => false
      | selection :: rest => spreads selection || anyOf rest
      end in
  match selection with
  | FragmentSpread _ => true
  | Field _ (Some selections) | InlineFragment _ (Some selections) => anyOf selections
  | Field _ None | InlineFragment _ None => false
  end.

(** A selection that reaches no other type: a field without a selection
    set, or an inline fragment with a type condition over such selections. *)
Fixpoint plain (selection : SelectionNode) : bool :=
  let allOf :=
    fix allOf (selections : list SelectionNode) : bool :=
      match selections with
      | [] => true
      | selection :: rest => plain selection && allOf rest
      end in
  match selection with
  | Field _ None => true
  | InlineFragment _ None => true
  | InlineFragment typeCondition (Some selections) =>
      Connect.is_truthy_string typeCondition && allOf selections
  | Field _ (Some _) | FragmentSpread _ => false
  end.

(** Two lists of field definitions that agree on the names of the fields and
    on the named types under the wrappers. *)
Definition sameNamedTypes (fields1 fields2 : list FieldDefinitionNode) : Prop :=
  Forall2 (fun f g => f.(fd_name) = g.(fd_name)
                      /\ namedTypeOf f.(fd_type) = namedTypeOf g.(fd_type))
    fields1 fields2.


(** A small schema: movies have a title and actors; actors have a name. *)
Definition movieFields : list FieldDefinitionNode :=
  [ {| fd_name := "title"; fd_type := NonNullType (NamedType "String") |};
    {| fd_name := "actors";
       fd_type := NonNullType (ListType (NonNullType (NamedType "Actor"))) |} ].

Definition actorFields : list FieldDefinitionNode :=
  [ {| fd_name := "name"; fd_type := NamedType "String" |} ].

Definition Movie : TypeDefinitionNode :=
  {| td_name := "Movie"; td_fields := Some movieFields |}.

Definition Actor : TypeDefinitionNode :=
  {| td_name := "Actor"; td_fields := Some actorFields |}.

(** A resolve tree as the translation layer builds it, keyed by the name
    of the field. *)
Definition treeOf (name : string) (fieldsByTypeName : obj) : any :=
  VObj [("name", VStr name); ("alias", VStr name); ("args", VObj []);
        ("fieldsByTypeName", VObj fieldsByTypeName)].

Definition sampleImports : Imports := {|
  generateResolveTree := fun x =>
    VObj [(x.(rt_name), treeOf x.(rt_name) x.(rt_fieldsByTypeName))];
|}.

(** The document parsed from [{ title actors { name } }]. *)
Definition titleAndActors : DocumentNode :=
  {| definitions :=
       [OperationDefinition
          [Field "title" None; Field "actors" (Some [Field "name" None])]] |}.

Definition titleAndActorsTree : obj :=
  [("title", treeOf "title" []);
   ("actors", treeOf "actors" [("Actor", VObj [("name", treeOf "name" [])])])].

End ResolveTrees.

(* ===================================================================== *)
(** ** Further inputs on which the properties are exercised *)
(* ===================================================================== *)

Module Cases.

Import Connect CustomResolver.

(** The same arguments with other resolvers. *)
Definition withCustomResolvers (resolvers : any) (args : Args) : Args :=
  {| field := args.(field); object := args.(object); objects := args.(objects);
     interfaces := args.(interfaces); unions := args.(unions);
     customResolvers := resolvers; interfaceField := args.(interfaceField) |}.

(** The same relation field with another direction. *)
Definition withDirection (d : Direction) (f : RelationField) : RelationField :=
  {| fieldName := f.(fieldName); type := f.(type); direction := d;
     properties := f.(properties); union := f.(union); interface := f.(interface);
     typeMeta := f.(typeMeta) |}.

(** The same arguments with another direction of the relation field and
    another label override. *)
Definition redirected (d : Direction) (label : option string) (a : ConnectArgs)
  : ConnectArgs :=
  {| withVars := a.(withVars); value := a.(value); varName := a.(varName);
     relationField := withDirection d a.(relationField); parentVar := a.(parentVar);
     refNodes := a.(refNodes); context := a.(context);
     callbackBucket := a.(callbackBucket); labelOverride := label;
     parentNode := a.(parentNode); fromCreate := a.(fromCreate);
     insideDoWhen := a.(insideDoWhen);
     includeRelationshipValidation := a.(includeRelationshipValidation);
     isFirstLevel := a.(isFirstLevel) |}.

(** Two literal entries on one relation field:
    [connect: [{ where: { node: { name: "Keanu" } } }, { where: { node: { name: "Carrie" } } }]]
    with edge properties. *)
Definition twoEntries : any :=
  VArr [Sample.connectByName "Keanu" 1; Sample.connectByName "Carrie" 2].


(** An entry whose filter narrows to shows, which no production is. *)
Definition showsOnly : any :=
  VObj [("where", VObj [("node", VObj [("_on", VObj [("Show", VObj [])])])])].

(** A field [toString] of an object type that carries [@customResolver],
    with the resolver map [{}]. *)
Definition inheritedNameArgs : Args :=
  {| field := {| field_name := "toString";
                 directives := Some [ {| dir_name := "customResolver";
                                         arguments := None |} ] |};
     object := {| kind := OBJECT_TYPE_DEFINITION; type_name := "User";
                  fields := None |};
     objects := []; interfaces := []; unions := [];
     customResolvers := VObj []; interfaceField := None |}.

Definition sampleGraphql : Graphql :=
  {| parseToResolveTree := fun _ _ _ _ _ => inl (VObj []);
     removeDuplicates := fun l => l |}.

(** People carry no authorization rules. *)
Definition Person : Node :=
  {| name := "Person"; auth := None; relationFields := [Sample.actedIn] |}.

(** Connecting people to a series: neither node has rules. *)
Definition connectPeople (v : any) : ConnectArgs :=
  {| withVars := ["this"]; value := v; varName := "this_connect_actors";
     relationField := Sample.actors; parentVar := "this"; refNodes := [Some Person];
     context := Sample.sampleContext false; callbackBucket := VObj [];
     labelOverride := None; parentNode := Sample.Series; fromCreate := false;
     insideDoWhen := false; includeRelationshipValidation := false;
     isFirstLevel := true |}.

End Cases.

(* ===================================================================== *)
(** ** Properties of the connect compiler *)
(* ===================================================================== *)

Import Connect Notions.

(** *** The result monad *)

Lemma bind_Ok_inv {A B : Type} (m : result A) (f : A -> result B) (b : B) :
  JS.bind m f = Ok b -> exists x, m = Ok x /\ f x = Ok b.
Proof.
  destruct m as [x | | id | |]; simpl; intros Hb; try discriminate.
  exists x. split; [reflexivity | exact Hb].
Qed.

Lemma foldM_app {A B : Type} (f : B -> A -> result B) (xs ys : list A) :
  forall acc, foldM f (xs ++ ys) acc = (r <-- foldM f xs acc; foldM f ys r).
Proof.
  induction xs as [| x xs IH]; intros acc; [reflexivity |].
  cbn [foldM app]. destruct (f acc x) as [b | | id | |]; cbn [JS.bind]; try reflexivity.
  apply IH.
Qed.

Lemma foldMi_app {A B : Type} (f : B -> A -> nat -> result B) (xs ys : list A) :
  forall (i : nat) (acc : B),
    foldMi f i (xs ++ ys) acc
    = (r <-- foldMi f i xs acc; foldMi f (i + length xs) ys r).
Proof.
  induction xs as [| x xs IH]; intros i acc.
  - cbn [foldMi app length JS.bind]. rewrite Nat.add_0_r. reflexivity.
  - cbn [foldMi app length]. destruct (f acc x i) as [b | | id | |]; cbn [JS.bind];
      try reflexivity.
    rewrite IH. replace (S i + length xs) with (i + S (length xs)) by lia. reflexivity.
Qed.

(** A fold whose callback ignores the index can start from any index. *)
Lemma foldMi_index {A B : Type} (f : B -> A -> nat -> result B) :
  (forall acc x i j, f acc x i = f acc x j) ->
  forall xs i j acc, foldMi f i xs acc = foldMi f j xs acc.
Proof.
  intros Hf xs. induction xs as [| x xs IH]; intros i j acc; [reflexivity |].
  cbn [foldMi]. rewrite (Hf acc x i j).
  destruct (f acc x j); cbn [JS.bind]; try reflexivity. apply IH.
Qed.

Ltac inv_bind H :=
  let x := fresh "x" in
  let Hx := fresh "Hx" in
  apply bind_Ok_inv in H; destruct H as (x & Hx & H).

(** *** Reading properties *)

Lemma get_Ok_nonnullish (v : any) (k : string) (x : any) :
  get v k = Ok x -> v <> VUndefined /\ v <> VNull.
Proof. destruct v; simpl; intros E; try discriminate; split; discriminate. Qed.

Lemma get_nonnullish (v : any) (k : string) :
  v <> VUndefined -> v <> VNull -> get v k = read v k.
Proof. destruct v; simpl; intros U N; congruence. Qed.

(** A read that gives a falsy value is one the model describes. *)
Lemma read_falsy (v : any) (k : string) :
  truthy (opt_get v k) = false -> read v k = Ok (opt_get v k).
Proof.
  unfold opt_get. destruct (read v k) as [x | | id | |]; simpl; intros E;
    first [reflexivity | discriminate].
Qed.

Lemma has_app (k : string) (xs ys : list string) :
  has k (xs ++ ys) = has k xs || has k ys.
Proof. unfold has. apply existsb_app. Qed.

(** A name that is on none of the prototypes can be read from every value
    from which some name can be read. *)
Lemma read_sibling (v : any) (k k' : string) (x : any) :
  read v k = Ok x ->
  has k' (Array_prototype ++ String_prototype ++ Number_prototype ++ Object_prototype)
    = false ->
  exists y, read v k' = Ok y.
Proof.
  intros Hr Hn. rewrite !has_app in Hn.
  apply orb_false_iff in Hn as [Ha Hn]. apply orb_false_iff in Hn as [Hs Hn].
  apply orb_false_iff in Hn as [Hm Ho].
  unfold read in *. destruct (own_property v k') as [y |]; [eauto |].
  destruct v; cbn [inherited]; rewrite ?has_app, ?Ha, ?Hs, ?Hm, ?Ho; cbn [orb]; eauto.
  - unfold own_property in Hr. cbn in Hr. destruct (String.eqb k "length"); discriminate.
  - unfold own_property in Hr. cbn in Hr. destruct (String.eqb k "length"); discriminate.
Qed.

Lemma get_sibling (v : any) (k k' : string) (x : any) :
  get v k = Ok x ->
  has k' (Array_prototype ++ String_prototype ++ Number_prototype ++ Object_prototype)
    = false ->
  exists y, get v k' = Ok y.
Proof.
  intros Hg Hn. destruct (get_Ok_nonnullish _ _ _ Hg) as [U N].
  rewrite (get_nonnullish v k U N) in Hg. rewrite (get_nonnullish v k' U N).
  exact (read_sibling v k k' x Hg Hn).
Qed.

Section ConnectProperties.

Context `{!Imports}.
Variable recurse : ConnectArgs -> result (string * Params).

(** *** The early return of [createSubqueryContents] *)

Lemma onlyOn_skips (relatedNode : Node) (on : any) :
  truthy on = true ->
  hasOwnProperty on relatedNode.(name) = Ok false ->
  onlyOnWithoutImplementation relatedNode (VObj [("_on", on)]) = Ok true.
Proof.
  intros Ht Hh. unfold onlyOnWithoutImplementation. simpl.
  unfold read, own_property. simpl. rewrite Ht. simpl. rewrite Hh. reflexivity.
Qed.

Lemma whereFilter_skips (a : ConnectArgs) (relatedNode : Node) (connect : any)
  (wf : list (string * any)) (on : any) :
  get connect "where" = Ok (VObj wf) ->
  lookup_field "node" wf = Some (VObj [("_on", on)]) ->
  truthy on = true ->
  hasOwnProperty on relatedNode.(name) = Ok false ->
  whereFilter a relatedNode connect = Ok None.
Proof.
  intros Hw Hn Ht Hh. unfold whereFilter. rewrite Hw. simpl.
  unfold read, own_property. simpl. rewrite Hn. simpl.
  rewrite (onlyOn_skips relatedNode on Ht Hh). reflexivity.
Qed.

(** C4. When the node filter of a connect consists of [_on] alone and [_on]
    has no entry for the implementation being compiled,
    [createSubqueryContents] returns the empty subquery with no parameters
    (it neither throws nor emits a predicate); the implementation then adds
    nothing to the subqueries and parameters of an interface field, which
    are compiled as if the implementation were not in the list; and when it
    is the only implementation [reducer] pushes no [CALL] block. *)
Theorem C4_narrowing_only_filter_is_noop (a : ConnectArgs) (relatedNode : Node)
  (connect : any) (index : nat) (wf : list (string * any)) (on : any) :
  get connect "where" = Ok (VObj wf) ->
  lookup_field "node" wf = Some (VObj [("_on", on)]) ->
  truthy on = true ->
  hasOwnProperty on relatedNode.(name) = Ok false ->
  createSubqueryContents recurse a (Some relatedNode) connect index
    = Ok {| subquery := ""; sq_params := ∅ |}
  /\ (forall (acc : list string * Params) (i : nat),
        pushImplementation recurse a connect acc (Some relatedNode) i = Ok acc)
  /\ (forall (before after : list (option Node)) (acc : list string * Params),
        foldMi (pushImplementation recurse a connect) 0
               (before ++ Some relatedNode :: after) acc
        = foldMi (pushImplementation recurse a connect) 0 (before ++ after) acc)
  /\ (forall (res : Res) (itf : InterfaceField),
        a.(relationField).(interface) = Some itf ->
        a.(refNodes) = [Some relatedNode] ->
        reducer recurse a res connect index
          = Ok (pushFirstLevel a (pushParentWhere a res))).
Proof.
  intros Hw Hn Ht Hh.
  assert (Hc : forall n, createSubqueryContents recurse a (Some relatedNode) connect n
                 = Ok {| subquery := ""; sq_params := ∅ |}).
  { intros n. unfold createSubqueryContents, buildClauses.
    rewrite (whereFilter_skips a relatedNode connect wf on Hw Hn Ht Hh).
    reflexivity. }
  assert (Hp : forall acc i,
             pushImplementation recurse a connect acc (Some relatedNode) i = Ok acc).
  { intros acc i. unfold pushImplementation. rewrite Hc. reflexivity. }
  split; [apply Hc |]. split; [exact Hp |]. split.
  - intros before after acc.
    rewrite !foldMi_app. cbn [foldMi]. 
    destruct (foldMi (pushImplementation recurse a connect) 0 before acc) as [r | | id | |];
      cbn [JS.bind]; try reflexivity.
    rewrite Hp. cbn [JS.bind].
    apply foldMi_index. intros; reflexivity.
  - intros res itf Hi Hr. unfold reducer, innerOf. rewrite Hi, Hr.
    cbn [foldMi]. rewrite Hp. cbn.
    destruct (pushFirstLevel a (pushParentWhere a res)); reflexivity.
Qed.

End ConnectProperties.

(** An actor is connected to productions with a filter that narrows to
    series only: nothing is emitted for [Movie]. *)
Lemma C4_narrowing_only_filter_is_noop_witness :
  @createSubqueryContents Sample.sampleImports
      (fun _ => NoFuel)
      (Sample.connectActedIn (VArr [Sample.connectSeriesOnly]))
      (Some Sample.Movie) Sample.connectSeriesOnly 0
    = Ok {| subquery := ""; sq_params := ∅ |}.
Proof.
  refine (proj1 (@C4_narrowing_only_filter_is_noop Sample.sampleImports
           _ _ Sample.Movie Sample.connectSeriesOnly 0
           [("node", VObj [("_on", VObj [("Series", VObj [("title", VStr "s")])])])]
           (VObj [("Series", VObj [("title", VStr "s")])]) _ _ _ _));
    reflexivity.
Defined.

(** *** The clause objects *)

Section ClauseProperties.

Context `{!Imports}.

Lemma whereFilter_Ok_nonnullish (a : ConnectArgs) (relatedNode : Node) (connect : any)
  (r : option (list Predicate)) :
  whereFilter a relatedNode connect = Ok r ->
  exists w, get connect "where" = Ok w.
Proof.
  unfold whereFilter. intros E. inv_bind E. eauto.
Qed.

Lemma mergeOrCreateClause_defined (a : ConnectArgs) (connect : any) (w : any) :
  get connect "where" = Ok w ->
  exists c, mergeOrCreateClause a connect = Ok c.
Proof.
  intros Hw. unfold mergeOrCreateClause.
  destruct (get_sibling connect "where" "createAsDuplicate" w Hw eq_refl) as [y ->].
  simpl. destruct (truthy y); eauto.
Qed.

(** Without the flag the relationship pattern is merged. *)
Lemma mergeOrCreateClause_merge (a : ConnectArgs) (connect : any) :
  connect <> VUndefined -> connect <> VNull ->
  truthy (opt_get connect "createAsDuplicate") = false ->
  mergeOrCreateClause a connect = Ok (Merge (relationshipPattern a)).
Proof.
  intros U N F. unfold mergeOrCreateClause.
  rewrite (get_nonnullish _ _ U N), (read_falsy _ _ F). simpl. rewrite F. reflexivity.
Qed.

Lemma setA_defined (a : ConnectArgs) (connect : any) (w : any) :
  get connect "where" = Ok w ->
  exists set, setA a connect = Ok set.
Proof.
  intros Hw. unfold setA. destruct (is_truthy_string _); [| eauto].
  destruct (get_sibling connect "where" "edge" w Hw eq_refl) as [y ->].
  simpl. eauto.
Qed.

(** The clauses are built whenever the filter compiles and does not ask to
    skip the implementation; the match clause then carries the filter, the
    where rule of the related node and the allow rules, in this order. *)
Lemma buildClauses_defined (a : ConnectArgs) (relatedNode : Node) (connect : any)
  (ws : list Predicate) :
  whereFilter a relatedNode connect = Ok (Some ws) ->
  exists (mergeOrCreate : Clause) (set : option Clause),
    mergeOrCreateClause a connect = Ok mergeOrCreate /\
    setA a connect = Ok set /\
    buildClauses a relatedNode connect
    = Ok (Some
        {| matchClause :=
             OptionalMatch (nodeRef a)
               ([CVar <$> namedWithVars a] ++ metaWiths a)
               (ws ++ option_list (whereAuthPredicate a relatedNode)
                   ++ preAuthWhere a relatedNode);
           outerSubquery :=
             buildOuterSubquery a (innerSubquery a relatedNode mergeOrCreate set) |}).
Proof.
  intros Hw. destruct (whereFilter_Ok_nonnullish _ _ _ _ Hw) as [w Hg].
  destruct (setA_defined a connect w Hg) as [set Hs].
  destruct (mergeOrCreateClause_defined a connect w Hg) as [c Hc].
  exists c, set. split; [exact Hc |].
  split; [exact Hs |].
  unfold buildClauses. rewrite Hw. simpl.
  rewrite Hc. simpl. rewrite Hs. reflexivity.
Qed.

Lemma preAuth_both (a : ConnectArgs) (relatedNode : Node) (p1 p2 : Predicate) :
  a.(fromCreate) = false ->
  is_Some relatedNode.(auth) ->
  is_Some a.(parentNode).(auth) ->
  allowPredicate a relatedNode (nodeRef a) 0 = Some p1 ->
  allowPredicate a a.(parentNode) (parentNodeRef a) 1 = Some p2 ->
  preAuth a relatedNode = [p1; p2].
Proof.
  intros Hf [x Hx] [y Hy] H1 H2. unfold preAuth, nodeMatrix. rewrite Hf. simpl.
  rewrite Hx, H1, Hy, H2. reflexivity.
Qed.

(** *** Merging twice *)

Lemma sameEdge_refl (e : Graph.Edge) : Graph.sameEdge e e = true.
Proof. unfold Graph.sameEdge. rewrite !String.eqb_refl. reflexivity. Qed.

Lemma edgesBetween_existsb (e : Graph.Edge) (g : list Graph.Edge) :
  existsb (Graph.sameEdge e) g = true <-> 0 < Graph.edgesBetween e g.
Proof.
  unfold Graph.edgesBetween. induction g as [| x g IH]; cbn [existsb List.filter].
  - cbn. split; [discriminate | lia].
  - destruct (Graph.sameEdge e x); cbn [orb length]; [split; [lia | reflexivity] |].
    exact IH.
Qed.

(** A merge leaves the edges between the two nodes as they are when there
    is one already, and makes it one when there is none. *)
Lemma mergeEdge_count (e : Graph.Edge) (g : list Graph.Edge) :
  Graph.edgesBetween e (Graph.mergeEdge e g) = Nat.max 1 (Graph.edgesBetween e g).
Proof.
  unfold Graph.mergeEdge. destruct (existsb (Graph.sameEdge e) g) eqn:E.
  - apply edgesBetween_existsb in E. lia.
  - assert (Hz : Graph.edgesBetween e g = 0).
    { destruct (Graph.edgesBetween e g) eqn:Hc; [reflexivity |].
      assert (Hpos : existsb (Graph.sameEdge e) g = true)
        by (apply edgesBetween_existsb; lia).
      congruence. }
    unfold Graph.edgesBetween in *. rewrite List.filter_app, length_app, Hz.
    cbn [List.filter]. rewrite sameEdge_refl. reflexivity.
Qed.

(** A merge removes no edge. *)
Lemma mergeEdge_keeps (e e' : Graph.Edge) (g : list Graph.Edge) :
  Graph.edgesBetween e g <= Graph.edgesBetween e (Graph.mergeEdge e' g).
Proof.
  unfold Graph.mergeEdge. destruct (existsb (Graph.sameEdge e') g); [lia |].
  unfold Graph.edgesBetween. rewrite List.filter_app, length_app. lia.
Qed.

(** Without [createAsDuplicate], executing the clause of the same connect
    twice, on a graph with no edge of that type between the two nodes,
    leaves exactly one. *)
Lemma merge_twice_one_edge (a : ConnectArgs) (connect : any) (binding : Ref -> string)
  (g : list Graph.Edge) :
  connect <> VUndefined -> connect <> VNull ->
  truthy (opt_get connect "createAsDuplicate") = false ->
  Graph.edgesBetween (Graph.edgeOf binding (relationshipPattern a)) g = 0 ->
  exists c g1 g2,
    mergeOrCreateClause a connect = Ok c
    /\ Graph.execute binding c g = Some g1
    /\ Graph.execute binding c g1 = Some g2
    /\ Graph.edgesBetween (Graph.edgeOf binding (relationshipPattern a)) g2 = 1.
Proof.
  intros U N Hf Hz. eexists _, _, _.
  split; [apply (mergeOrCreateClause_merge a connect U N Hf) |].
  split; [reflexivity |]. split; [reflexivity |].
  rewrite !mergeEdge_count, Hz. reflexivity.
Qed.

(** C1. With [createAsDuplicate: true] the clause that stands where the
    relationship is merged otherwise is the raw text [CREATE] followed by the
    anonymous variable [relationship]: whatever the relation field and the
    two nodes are, it renders as [CREATE var0] and names neither the nodes
    nor the relationship type, so it describes no edge between them.  An
    entry without that flag, also one with [asDuplicate: true], merges
    [relationshipPattern], the pattern between the two nodes, whatever the
    relation field is configured with. *)
Theorem C1_create_branch_names_no_pattern (a : ConnectArgs) :
  mergeOrCreateClause a (Sample.connectDuplicate "Name" 2)
    = Ok (RawCypher [RText "CREATE "; RRef (AnonVariable 0)])
  /\ renderRaw [RText "CREATE "; RRef (AnonVariable 0)] = "CREATE var0"
  /\ mergeOrCreateClause a (Sample.connectByName "Name" 2)
    = Ok (Merge {| source := NamedNode a.(varName); target := NamedNode a.(parentVar);
                   rtype := a.(relationField).(type) |})
  /\ mergeOrCreateClause a (Sample.connectAsDuplicate "Name" 2)
    = Ok (Merge {| source := NamedNode a.(varName); target := NamedNode a.(parentVar);
                   rtype := a.(relationField).(type) |}).
Proof.
  split; [reflexivity |]. split; [reflexivity |]. split; reflexivity.
Qed.

(** C9. The root-level value of a key is dropped only when the [_on] entry
    holds a truthy value for it, and the filter built for the [_on] entry
    takes every root-level key again, so that a root-level key written
    after [_on] replaces the value from [_on].  For the node filter
    [{ _on: { Movie: { title: "x" } }, title: "y" }] the two filters compiled
    for [Movie] are [{}] and [{ title: "y" }]: the value from [_on] is not
    used.  For [{ released: true, _on: { Movie: { released: false } } }] they
    are [{ released: true }] and [{ released: false }]: the root-level value
    is not omitted. *)
Theorem C9_on_override_is_not_always_used :
  rootWhereInput Sample.Movie Sample.onBeforeRoot = Ok []
  /\ onTypeWhereInput Sample.Movie Sample.onBeforeRoot = Ok [("title", VStr "y")]
  /\ rootWhereInput Sample.Movie Sample.overrideWithFalse = Ok [("released", VBool true)]
  /\ onTypeWhereInput Sample.Movie Sample.overrideWithFalse = Ok [("released", VBool false)].
Proof.
  repeat split; reflexivity.
Qed.

End ClauseProperties.

(* ===================================================================== *)
(** ** Properties of the deprecation warning *)
(* ===================================================================== *)

Section WarningProperties.

Import CustomResolver.
Context `{!Graphql}.

Lemma calls_state (argss : list Args) (st : ModuleState) :
  snd (calls argss st) = fold_left (fun s args => warnDeprecated args s) argss st.
Proof.
  revert st. induction argss as [| args rest IH]; intros st; [reflexivity |].
  cbn [calls fold_left]. unfold getCustomResolverMeta.
  destruct (calls rest (warnDeprecated args st)) as [os st''] eqn:E.
  cbn [snd]. rewrite <- IH, E. reflexivity.
Qed.

(** Once the flag is set a call leaves the module state as it is. *)
Lemma warnDeprecated_shown (args : Args) (st : ModuleState) :
  st.(deprecationWarningShown) = true -> warnDeprecated args st = st.
Proof.
  intros Hs. unfold warnDeprecated. rewrite Hs.
  destruct (deprecatedDirective args); reflexivity.
Qed.

Lemma warnDeprecated_fresh (args : Args) (st : ModuleState) :
  deprecatedDirective args = None -> warnDeprecated args st = st.
Proof. intros Hd. unfold warnDeprecated. rewrite Hd. reflexivity. Qed.

Lemma warnings_app (st : ModuleState) (s : string) :
  warnings {| deprecationWarningShown := true; console := st.(console) ++ [s] |}
  = warnings st + (if String.eqb DEPRECATION_WARNING s then 1 else 0).
Proof.
  unfold warnings. cbn [console]. rewrite List.filter_app, length_app.
  cbn [List.filter]. destruct (String.eqb DEPRECATION_WARNING s); reflexivity.
Qed.

Lemma warnDeprecated_counted (args : Args) (st : ModuleState) :
  counted st -> counted (warnDeprecated args st).
Proof.
  unfold counted, warnDeprecated. intros Hc.
  destruct (deprecatedDirective args); [| exact Hc].
  destruct (deprecationWarningShown st) eqn:Hs; cbn [negb];
    [rewrite Hs; exact Hc |].
  rewrite warnings_app, Hc, String.eqb_refl. reflexivity.
Qed.

Lemma run_counted (argss : list Args) (st : ModuleState) :
  counted st -> counted (fold_left (fun s args => warnDeprecated args s) argss st).
Proof.
  revert st. induction argss as [| args rest IH]; intros st Hc; [exact Hc |].
  cbn [fold_left]. apply IH, warnDeprecated_counted, Hc.
Qed.

(** What a call returns or throws does not depend on the module state. *)
Lemma outcome_stateless (args : Args) (st1 st2 : ModuleState) :
  fst (getCustomResolverMeta args st1) = fst (getCustomResolverMeta args st2).
Proof. reflexivity. Qed.

(** C10. Over any sequence of calls made from the freshly loaded module the
    deprecation warning is printed at most once; a sequence in which no call
    meets the deprecated directive leaves the module state untouched and so
    prints nothing; the first call that meets the directive prints the
    warning and sets the flag, and once the flag is set no call prints. *)
Theorem C10_deprecation_warning_at_most_once (argss : list Args) :
  warnings (snd (calls argss initial)) <= 1
  /\ (Forall (fun args => deprecatedDirective args = None) argss ->
      snd (calls argss initial) = initial)
  /\ (forall args, is_Some (deprecatedDirective args) ->
      snd (getCustomResolverMeta args initial)
        = {| deprecationWarningShown := true; console := [DEPRECATION_WARNING] |})
  /\ (forall args st, st.(deprecationWarningShown) = true ->
      snd (getCustomResolverMeta args st) = st).
Proof.
  split; [| split; [| split]].
  - rewrite calls_state.
    assert (Hc : counted (fold_left (fun s args => warnDeprecated args s) argss initial)).
    { apply run_counted. reflexivity. }
    unfold counted in Hc. rewrite Hc.
    destruct (deprecationWarningShown _); lia.
  - intros Hall. rewrite calls_state.
    induction Hall as [| args rest Hd _ IH]; [reflexivity |].
    cbn [fold_left]. rewrite (warnDeprecated_fresh args initial Hd). exact IH.
  - intros args [d Hd]. unfold getCustomResolverMeta, warnDeprecated.
    cbn [snd]. rewrite Hd. reflexivity.
  - intros args st Hs. unfold getCustomResolverMeta. cbn [snd].
    apply warnDeprecated_shown, Hs.
Qed.

End WarningProperties.

(** A field with the deprecated directive is met twice, then a plain field. *)
Lemma C10_deprecation_warning_at_most_once_witness :
  CustomResolver.warnings
    (snd (@CustomResolver.calls
            {| CustomResolver.parseToResolveTree := fun _ _ _ _ _ => inl (VObj []);
               CustomResolver.removeDuplicates := fun l => l |}
            [ {| CustomResolver.field :=
                   {| CustomResolver.field_name := "fullName";
                      CustomResolver.directives :=
                        Some [ {| CustomResolver.dir_name := "computed";
                                  CustomResolver.arguments := None |} ] |};
                 CustomResolver.object :=
                   {| CustomResolver.kind := CustomResolver.OBJECT_TYPE_DEFINITION;
                      CustomResolver.type_name := "User";
                      CustomResolver.fields := None |};
                 CustomResolver.objects := []; CustomResolver.interfaces := [];
                 CustomResolver.unions := []; CustomResolver.customResolvers := VUndefined;
                 CustomResolver.interfaceField := None |} ]
            CustomResolver.initial)) <= 1.
Proof.
  exact (proj1 (@C10_deprecation_warning_at_most_once _ _)).
Defined.

(* ===================================================================== *)
(** ** Properties of the sorting rule *)
(* ===================================================================== *)

Section SortProperties.

Import ReadSort.

Lemma sortedComputed_In (op : ReadOperation) (f : Field) :
  In f (sortFields op) -> isComputed f = true -> In f (sortedComputed op).
Proof. intros Hin Hc. unfold sortedComputed. apply List.filter_In. auto. Qed.

Lemma sortedComputed_stored (op : ReadOperation) :
  (forall f, In f (sortFields op) -> isComputed f = false) ->
  sortedComputed op = [].
Proof.
  intros Hs. unfold sortedComputed.
  induction (sortFields op) as [| g gs IH]; [reflexivity |].
  simpl. rewrite (Hs g (or_introl eq_refl)). apply IH.
  intros f Hf. apply Hs. right. exact Hf.
Qed.

Lemma materializes_In (f : Field) (fs : list Field) :
  In f fs ->
  materializes f.(f_name) (Project ((fun g => (g.(f_name), true)) <$> fs)) = true.
Proof.
  intros Hin. simpl. apply existsb_exists.
  exists (f.(f_name), true). split.
  - apply in_map_iff. exists f. auto.
  - simpl. rewrite String.eqb_refl. reflexivity.
Qed.

(** C5. A read that sorts on a computed field projects that field in the
    step that follows the match, and the sort and every limit or offset come
    after that step; a read that sorts on stored fields only has no
    projection before the sort and the pagination, and every computed field
    of the selection is materialized by the final projection, the last step
    of the program. *)
Theorem C5_projection_order (op : ReadOperation) :
  (forall f, In f (sortFields op) -> isComputed f = true ->
     exists p,
       translateRead op
         = [Match; p] ++ sortSteps op ++ pagination op ++ [finalProjection op]
       /\ materializes f.(f_name) p = true
       /\ (exists keys, sortSteps op = [OrderBy keys])
       /\ materializes f.(f_name) (finalProjection op) = false)
  /\ ((forall f, In f (sortFields op) -> isComputed f = false) ->
      translateRead op = [Match] ++ sortSteps op ++ pagination op ++ [finalProjection op]
      /\ Forall (fun s => forall n, materializes n s = false)
                ([Match] ++ sortSteps op ++ pagination op)
      /\ forall g, In g op.(selection) -> isComputed g = true ->
           materializes g.(f_name) (finalProjection op) = true).
Proof.
  split.
  - intros f Hin Hc.
    pose proof (sortedComputed_In op f Hin Hc) as Hs.
    unfold translateRead, preProjection.
    remember (sortedComputed op) as sc eqn:E.
    destruct sc as [| g gs]; [destruct Hs |].
    eexists. split; [reflexivity |]. split; [| split].
    + apply materializes_In, Hs.
    + unfold sortSteps, sortFields in *. destruct (sort op) as [| k ks]; [destruct Hin |].
      eexists. reflexivity.
    + cbn [materializes finalProjection]. apply not_true_is_false. intros Hex.
      apply existsb_exists in Hex. destruct Hex as [[n b] [Hn Hb]].
      apply in_map_iff in Hn. destruct Hn as [h [Hh _]]. inversion Hh; subst n b.
      cbn [fst snd] in Hb. apply andb_true_iff in Hb. destruct Hb as [Hname Hb].
      apply andb_true_iff in Hb. destruct Hb as [_ Hb].
      apply negb_true_iff in Hb.
      assert (Hi : inSort op h = true).
      { unfold inSort. apply existsb_exists. exists f. split.
        - rewrite <- E. exact Hs.
        - rewrite String.eqb_sym. exact Hname. }
      congruence.
  - intros Hstored. unfold translateRead, preProjection.
    rewrite (sortedComputed_stored op Hstored). split; [reflexivity |]. split.
    + apply Forall_app. split; [constructor; [reflexivity | constructor] |].
      apply Forall_app. split.
      * unfold sortSteps. destruct (sort op); constructor; [reflexivity | constructor].
      * unfold pagination. destruct (offset op), (limit op); simpl;
          repeat constructor.
    + intros g Hg Hc. simpl. apply existsb_exists.
      exists (g.(f_name), isComputed g && negb (inSort op g)). split.
      * apply in_map_iff. exists g. auto.
      * simpl. rewrite String.eqb_refl, Hc. unfold inSort.
        rewrite (sortedComputed_stored op Hstored). reflexivity.
Qed.

End SortProperties.

(** Movies sorted on the computed field [totalGenres], two per page. *)
Lemma C5_projection_order_witness :
  exists p,
    ReadSort.translateRead
      {| ReadSort.sort :=
           [({| ReadSort.f_name := "totalGenres";
                ReadSort.f_kind := ReadSort.Computed "MATCH (this)-[:HAS_GENRE]->(genre:Genre) RETURN count(DISTINCT genre)" |},
             ReadSort.ASC)];
         ReadSort.offset := Some 1; ReadSort.limit := Some 2;
         ReadSort.selection :=
           [{| ReadSort.f_name := "title"; ReadSort.f_kind := ReadSort.Stored |};
            {| ReadSort.f_name := "totalGenres";
               ReadSort.f_kind := ReadSort.Computed "MATCH (this)-[:HAS_GENRE]->(genre:Genre) RETURN count(DISTINCT genre)" |}] |}
    = [ReadSort.Match; p;
       ReadSort.OrderBy [("totalGenres", ReadSort.ASC)];
       ReadSort.Skip 1; ReadSort.Limit 2;
       ReadSort.Project [("title", false); ("totalGenres", false)]]
    /\ ReadSort.materializes "totalGenres" p = true.
Proof.
  destruct (proj1 (C5_projection_order
      {| ReadSort.sort :=
           [({| ReadSort.f_name := "totalGenres";
                ReadSort.f_kind := ReadSort.Computed "MATCH (this)-[:HAS_GENRE]->(genre:Genre) RETURN count(DISTINCT genre)" |},
             ReadSort.ASC)];
         ReadSort.offset := Some 1; ReadSort.limit := Some 2;
         ReadSort.selection :=
           [{| ReadSort.f_name := "title"; ReadSort.f_kind := ReadSort.Stored |};
            {| ReadSort.f_name := "totalGenres";
               ReadSort.f_kind := ReadSort.Computed "MATCH (this)-[:HAS_GENRE]->(genre:Genre) RETURN count(DISTINCT genre)" |}] |})
      {| ReadSort.f_name := "totalGenres";
         ReadSort.f_kind := ReadSort.Computed "MATCH (this)-[:HAS_GENRE]->(genre:Genre) RETURN count(DISTINCT genre)" |}
      (or_introl eq_refl) eq_refl) as (p & Hp & Hm & _).
  exists p. split; [exact Hp | exact Hm].
Defined.

(* ===================================================================== *)
(** ** Properties of [reducer] *)
(* ===================================================================== *)

Section ReducerProperties.

Context `{!Imports}.
Variable recurse : ConnectArgs -> result (string * Params).

Lemma spread_empty_l (p : Params) : spread ∅ p = p.
Proof. unfold spread. apply map_union_empty. Qed.

Lemma spread_empty_r (p : Params) : spread p ∅ = p.
Proof. unfold spread. apply map_empty_union. Qed.

Lemma spread_assoc (p q r : Params) : spread (spread p q) r = spread p (spread q r).
Proof. unfold spread. apply map_union_assoc. Qed.

Lemma spread_idemp (p : Params) : spread p p = p.
Proof. unfold spread. apply map_union_idemp. Qed.

Lemma appendRes_empty_l (e : Res) : appendRes emptyRes e = e.
Proof.
  destruct e. unfold appendRes. cbn [emptyRes connects params app].
  rewrite spread_empty_l. reflexivity.
Qed.

Lemma appendRes_empty_r (e : Res) : appendRes e emptyRes = e.
Proof.
  destruct e. unfold appendRes. cbn [emptyRes connects params].
  rewrite spread_empty_r, app_nil_r. reflexivity.
Qed.

Lemma appendRes_assoc (r e1 e2 : Res) :
  appendRes (appendRes r e1) e2 = appendRes r (appendRes e1 e2).
Proof.
  unfold appendRes. cbn [connects params]. rewrite spread_assoc, app_assoc. reflexivity.
Qed.

Lemma pushParentWhere_acc (a : ConnectArgs) (res : Res) :
  pushParentWhere a res = appendRes res (pushParentWhere a emptyRes).
Proof.
  unfold pushParentWhere.
  destruct (auth (parentNode a)); [| symmetry; apply appendRes_empty_r].
  destruct (negb (fromCreate a)); [| symmetry; apply appendRes_empty_r].
  destruct (parentWhereAuth a) as [str p].
  destruct (nonempty str); [| symmetry; apply appendRes_empty_r].
  unfold appendRes. cbn [emptyRes connects params app]. rewrite spread_empty_l. reflexivity.
Qed.

Lemma pushFirstLevel_acc (a : ConnectArgs) (res : Res) :
  pushFirstLevel a res = appendRes res (pushFirstLevel a emptyRes).
Proof.
  unfold pushFirstLevel.
  destruct (isFirstLevel a); [| symmetry; apply appendRes_empty_r].
  unfold appendRes. cbn [emptyRes connects params app]. rewrite spread_empty_r. reflexivity.
Qed.

Lemma implementations_acc (a : ConnectArgs) (connect : any) (xs : list (option Node)) :
  forall (i : nat) (l : list string) (ps q : Params),
    foldMi (pushImplementation recurse a connect) i xs (l, spread ps q)
    = (r <-- foldMi (pushImplementation recurse a connect) i xs (l, q);
       Ok (fst r, spread ps (snd r))).
Proof.
  induction xs as [| x xs IH]; intros i l ps q; [reflexivity |].
  cbn [foldMi]. unfold pushImplementation at 1 3.
  destruct (createSubqueryContents recurse a x connect i) as [sq | | id | |]; cbn [JS.bind];
    try reflexivity.
  destruct (nonempty (subquery sq)); cbn [JS.bind fst snd].
  - rewrite spread_assoc. apply IH.
  - apply IH.
Qed.

Lemma innerOf_acc (a : ConnectArgs) (connect : any) (index : nat) (ps : Params) :
  innerOf recurse a connect index ps
  = (ip <-- innerOf recurse a connect index ∅; Ok (fst ip, spread ps (snd ip))).
Proof.
  unfold innerOf. destruct (interface (relationField a)).
  - rewrite <- (spread_empty_r ps) at 1. rewrite implementations_acc.
    destruct (foldMi _ 0 (refNodes a) ([], ∅)) as [r | | id | |]; reflexivity.
  - destruct (createSubqueryContents _ _ _ _ _) as [sq | | id | |]; cbn [JS.bind fst snd];
      try reflexivity.
    rewrite spread_empty_l. reflexivity.
Qed.

Lemma pushInner_acc (a : ConnectArgs) (res : Res) (inner : list string) (ps : Params) :
  pushInner a res inner (spread res.(params) ps)
  = appendRes res (pushInner a emptyRes inner ps).
Proof.
  unfold pushInner, appendRes. destruct inner; cbn [emptyRes connects params app];
    rewrite ?app_nil_r; reflexivity.
Qed.

(** An entry is compiled on its own: what [reducer] adds for it does not
    depend on what was accumulated before, and leaves that in place. *)
Lemma reducer_acc (a : ConnectArgs) (res : Res) (connect : any) (index : nat) :
  reducer recurse a res connect index
  = (e <-- reducer recurse a emptyRes connect index; Ok (appendRes res e)).
Proof.
  unfold reducer.
  rewrite (pushParentWhere_acc a res), pushFirstLevel_acc, appendRes_assoc.
  rewrite <- (pushFirstLevel_acc a (pushParentWhere a emptyRes)).
  set (pre := pushFirstLevel a (pushParentWhere a emptyRes)).
  rewrite (innerOf_acc a connect index (params (appendRes res pre))).
  rewrite (innerOf_acc a connect index (params pre)).
  destruct (innerOf recurse a connect index ∅) as [ip | | id | |]; cbn [JS.bind fst snd];
    try reflexivity.
  rewrite !pushInner_acc, appendRes_assoc. reflexivity.
Qed.

Lemma foldMi_reducer_acc (a : ConnectArgs) (xs : list any) :
  forall (i : nat) (res : Res),
    foldMi (reducer recurse a) i xs res
    = (e <-- foldMi (reducer recurse a) i xs emptyRes; Ok (appendRes res e)).
Proof.
  induction xs as [| x xs IH]; intros i res.
  - cbn [foldMi JS.bind]. rewrite appendRes_empty_r. reflexivity.
  - cbn [foldMi]. rewrite (reducer_acc a res).
    destruct (reducer recurse a emptyRes x i) as [e | | id | |]; cbn [JS.bind]; try reflexivity.
    rewrite (IH (S i) (appendRes res e)), (IH (S i) e).
    destruct (foldMi (reducer recurse a) (S i) xs emptyRes) as [e' | | id' | |]; cbn [JS.bind];
      try reflexivity.
    rewrite appendRes_assoc. reflexivity.
Qed.

(** The entries are compiled left to right and their lines are laid out in
    that order. *)
Lemma entries_in_order (a : ConnectArgs) (xs ys : list any) (rx ry : Res) :
  foldMi (reducer recurse a) 0 xs emptyRes = Ok rx ->
  foldMi (reducer recurse a) (length xs) ys emptyRes = Ok ry ->
  foldMi (reducer recurse a) 0 (xs ++ ys) emptyRes = Ok (appendRes rx ry).
Proof.
  intros Hx Hy. rewrite foldMi_app, Hx. cbn [JS.bind Nat.add].
  rewrite foldMi_reducer_acc, Hy. reflexivity.
Qed.

End ReducerProperties.

(* ===================================================================== *)
(** ** The names that no scope declares *)
(* ===================================================================== *)

Lemma foldMi_pointwise {A B : Type} (f g : B -> A -> nat -> result B) :
  (forall acc x i, f acc x i = g acc x i) ->
  forall xs i acc, foldMi f i xs acc = foldMi g i xs acc.
Proof.
  intros Hfg xs. induction xs as [| x xs IH]; intros i acc; cbn [foldMi]; [reflexivity |].
  rewrite Hfg. destruct (g acc x i); cbn [JS.bind]; try reflexivity. apply IH.
Qed.

Section UndeclaredProperties.

Context `{!Imports}.

(** Once the clause objects are built the next statement reads a name that
    is not declared. *)
Lemma createSubqueryContents_built (recurse : ConnectArgs -> result (string * Params))
  (a : ConnectArgs) (relatedNode : Node) (connect : any) (index : nat) (b : Built) :
  buildClauses a relatedNode connect = Ok (Some b) ->
  createSubqueryContents recurse a (Some relatedNode) connect index
    = ReferenceError (firstRead a).
Proof.
  intros Hb. unfold createSubqueryContents, firstRead. rewrite Hb. cbn [JS.bind].
  destruct (includeRelationshipValidation a); reflexivity.
Qed.

(** What [createSubqueryContents] does is decided by the filter block: it
    throws what the filter throws, returns the empty subquery at the early
    return, and otherwise throws at the first undeclared name. *)
Lemma createSubqueryContents_eq (recurse : ConnectArgs -> result (string * Params))
  (a : ConnectArgs) (relatedNode : Node) (connect : any) (index : nat) :
  createSubqueryContents recurse a (Some relatedNode) connect index
  = (skip <-- skips (whereFilter a relatedNode connect);
     if skip then Ok nothing else ReferenceError (firstRead a)).
Proof.
  destruct (whereFilter a relatedNode connect) as [[ws |] | | id | |] eqn:E;
    cbn [skips JS.bind].
  - destruct (buildClauses_defined a relatedNode connect ws E) as (m & set & _ & _ & Hb).
    apply (createSubqueryContents_built recurse a relatedNode connect index _ Hb).
  - unfold createSubqueryContents, buildClauses. rewrite E. reflexivity.
  - unfold createSubqueryContents, buildClauses. rewrite E. reflexivity.
  - unfold createSubqueryContents, buildClauses. rewrite E. reflexivity.
  - unfold createSubqueryContents, buildClauses. rewrite E. reflexivity.
  - unfold createSubqueryContents, buildClauses. rewrite E. reflexivity.
Qed.

Lemma createSubqueryContents_past_filter
  (recurse : ConnectArgs -> result (string * Params))
  (a : ConnectArgs) (relatedNode : Node) (connect : any) (index : nat)
  (ws : list Predicate) :
  whereFilter a relatedNode connect = Ok (Some ws) ->
  createSubqueryContents recurse a (Some relatedNode) connect index
    = ReferenceError (firstRead a).
Proof. intros E. rewrite createSubqueryContents_eq, E. reflexivity. Qed.


(** The recursive call is never made: what is handed in for it has no part
    in the outcome. *)
Lemma createSubqueryContents_recurse
  (recurse recurse' : ConnectArgs -> result (string * Params))
  (a : ConnectArgs) (relatedNode : option Node) (connect : any) (index : nat) :
  createSubqueryContents recurse a relatedNode connect index
  = createSubqueryContents recurse' a relatedNode connect index.
Proof.
  destruct relatedNode as [n |]; [| reflexivity].
  rewrite !createSubqueryContents_eq. reflexivity.
Qed.

Lemma innerOf_recurse (recurse recurse' : ConnectArgs -> result (string * Params))
  (a : ConnectArgs) (connect : any) (index : nat) (ps : Params) :
  innerOf recurse a connect index ps = innerOf recurse' a connect index ps.
Proof.
  unfold innerOf. destruct (interface (relationField a)) as [itf |].
  - rewrite (foldMi_pointwise (pushImplementation recurse a connect)
               (pushImplementation recurse' a connect)); [reflexivity |].
    intros acc x i. unfold pushImplementation.
    rewrite (createSubqueryContents_recurse recurse recurse'). reflexivity.
  - rewrite (createSubqueryContents_recurse recurse recurse'). reflexivity.
Qed.

Lemma reducer_recurse (recurse recurse' : ConnectArgs -> result (string * Params))
  (a : ConnectArgs) (res : Res) (connect : any) (index : nat) :
  reducer recurse a res connect index = reducer recurse' a res connect index.
Proof.
  unfold reducer. rewrite (innerOf_recurse recurse recurse'). reflexivity.
Qed.

Lemma body_recurse (recurse recurse' : ConnectArgs -> result (string * Params))
  (a : ConnectArgs) :
  createConnectAndParams_body recurse a = createConnectAndParams_body recurse' a.
Proof.
  unfold createConnectAndParams_body.
  destruct (connectValues a) as [values | | id | |]; cbn [JS.bind]; [| reflexivity ..].
  rewrite (foldMi_pointwise (reducer recurse a) (reducer recurse' a)
             (fun acc x i => reducer_recurse recurse recurse' a acc x i)).
  reflexivity.
Qed.

(** On a field that is no interface the entry is compiled for the first
    node of [refNodes]; an entry whose filter does not skip it throws. *)
Lemma reducer_past_filter (recurse : ConnectArgs -> result (string * Params))
  (a : ConnectArgs) (relatedNode : Node) (rest : list (option Node)) (connect : any)
  (ws : list Predicate) (res : Res) (index : nat) :
  a.(relationField).(interface) = None ->
  a.(refNodes) = Some relatedNode :: rest ->
  whereFilter a relatedNode connect = Ok (Some ws) ->
  reducer recurse a res connect index = ReferenceError (firstRead a).
Proof.
  intros Hi Hr Hw. unfold reducer, innerOf. rewrite Hi, Hr. cbn [head mjoin option_join
    option_bind mbind id].
  change (mjoin (Some (Some relatedNode))) with (Some relatedNode).
  rewrite (createSubqueryContents_past_filter recurse a relatedNode connect index ws Hw).
  reflexivity.
Qed.


End UndeclaredProperties.

(** C2. Two literal connect entries on one relation field.  As soon as the
    filter of the first entry is compiled, [createSubqueryContents] reads
    [subquery] (or [nodeName], where the relationship validation is
    included), a name that no scope declares: [reducer] throws for the first
    entry, so does [createConnectAndParams] whatever the depth allowed for
    the recursion, and the second entry, which is not reached, throws the
    same way when compiled on its own.  Neither entry yields a subquery. *)
Theorem C2_literal_entries_throw_before_their_subquery `{!Imports} (fuel : nat)
  (a : ConnectArgs) (first second : any) (relatedNode : Node)
  (ws ws' : list Predicate) :
  a.(relationField).(typeMeta).(tm_array) = true ->
  a.(relationField).(interface) = None ->
  a.(value) = VArr [first; second] ->
  a.(refNodes) = [Some relatedNode] ->
  whereFilter a relatedNode first = Ok (Some ws) ->
  whereFilter a relatedNode second = Ok (Some ws') ->
  createConnectAndParams (S fuel) a = ReferenceError (firstRead a)
  /\ (forall (res : Res) (index : nat),
        reducer (createConnectAndParams fuel) a res first index
          = ReferenceError (firstRead a)
        /\ reducer (createConnectAndParams fuel) a res second index
          = ReferenceError (firstRead a))
  /\ (forall (c : any) (index : nat) (sq : SubqueryContents),
        In c [first; second] ->
        createSubqueryContents (createConnectAndParams fuel) a (Some relatedNode) c index
          <> Ok sq).
Proof.
  intros Harr Hi Hv Hr Hw Hw'.
  assert (H1 : forall res index,
             reducer (createConnectAndParams fuel) a res first index
             = ReferenceError (firstRead a))
    by (intros; eapply reducer_past_filter; eauto).
  assert (H2 : forall res index,
             reducer (createConnectAndParams fuel) a res second index
             = ReferenceError (firstRead a))
    by (intros; eapply reducer_past_filter; eauto).
  split; [| split].
  - cbn [createConnectAndParams]. unfold createConnectAndParams_body, connectValues.
    rewrite Harr, Hv. cbn [JS.bind foldMi]. rewrite H1. reflexivity.
  - intros res index. split; [apply H1 | apply H2].
  - intros c index sq [<- | [<- | []]].
    + rewrite (createSubqueryContents_past_filter _ a relatedNode first index ws Hw).
      discriminate.
    + rewrite (createSubqueryContents_past_filter _ a relatedNode second index ws' Hw').
      discriminate.
Qed.

(** A movie is created and connected to two actors by name. *)
Lemma C2_literal_entries_throw_before_their_subquery_witness :
  @createConnectAndParams Sample.sampleImports 1
    (Sample.connectActors false true Cases.twoEntries)
  = ReferenceError "subquery".
Proof.
  refine (proj1 (@C2_literal_entries_throw_before_their_subquery Sample.sampleImports 0
            (Sample.connectActors false true Cases.twoEntries)
            (Sample.connectByName "Keanu" 1) (Sample.connectByName "Carrie" 2)
            Sample.Actor
            [POpaque "this_connect_actors.name = $param"]
            [POpaque "this_connect_actors.name = $param"] _ _ _ _ _ _));
    reflexivity.
Defined.

(** C3. An actor is connected to an existing movie, both with rules on
    [CONNECT].  The match clause is built with the conjunction of the
    validations of both allow predicates among its [where] arguments, the
    related node's first and the parent's second; but the clause object is
    not used after that: [createSubqueryContents] goes on to read a name
    that no scope declares and throws, and what it returns or throws is the
    same whatever the generator of the authorization predicates answers.
    No subquery holds the predicates. *)
Theorem C3_allow_predicates_stay_on_the_clause_object `{!Imports}
  (answer : AuthArgs Ref -> option Predicate)
  (recurse : ConnectArgs -> result (string * Params))
  (a : ConnectArgs) (relatedNode : option Node) (connect : any) (index : nat) :
  @createSubqueryContents (withAuthPredicates answer _) recurse a relatedNode connect index
    = createSubqueryContents recurse a relatedNode connect index
  /\ (exists b : Built,
        @buildClauses Sample.sampleImports
          (Sample.connectActors false false (VArr [Sample.connectByName "Keanu" 1]))
          Sample.Actor (Sample.connectByName "Keanu" 1) = Ok (Some b)
        /\ matched b.(matchClause)
           = Some (NamedNode "this_connect_actors",
                   [POpaque "this_connect_actors.name = $param";
                    POpaque "this_connect_actors.owner = $auth.jwt.sub";
                    PAnd [PValidate (POpaque "this_connect_actorsActor0_allow = $auth.jwt.sub")
                            (dquote +:+ "@neo4j/graphql/FORBIDDEN" +:+ dquote);
                          PValidate (POpaque "thisMovie1_allow = $auth.jwt.sub")
                            (dquote +:+ "@neo4j/graphql/FORBIDDEN" +:+ dquote)]]))
  /\ @createSubqueryContents Sample.sampleImports recurse
       (Sample.connectActors false false (VArr [Sample.connectByName "Keanu" 1]))
       (Some Sample.Actor) (Sample.connectByName "Keanu" 1) index
     = ReferenceError "subquery"
  /\ @createConnectAndParams_body Sample.sampleImports recurse
       (Sample.connectActors false false (VArr [Sample.connectByName "Keanu" 1]))
     = ReferenceError "subquery".
Proof.
  split; [| split; [| split]].
  - destruct relatedNode as [n |]; [| reflexivity].
    rewrite !createSubqueryContents_eq. reflexivity.
  - eexists. split; reflexivity.
  - reflexivity.
  - reflexivity.
Qed.


(** C7. An actor, whose rules hold a bind rule on [CONNECT], is connected to
    a movie that is being created.  Compiling the connect throws: the lines
    of the validation call over the bind predicates come after the read of
    [subquery], a name that no scope declares, and are not reached.  The
    generator of the bind predicates has no part in what
    [createSubqueryContents] returns or throws. *)
Theorem C7_compiling_a_connect_with_bind_rules_throws `{!Imports}
  (answer : AuthArgs string -> string * Params)
  (recurse : ConnectArgs -> result (string * Params))
  (a : ConnectArgs) (relatedNode : option Node) (connect : any) (index : nat)
  (fuel : nat) :
  @createSubqueryContents (withAuthAndParams answer _) recurse a relatedNode connect index
    = createSubqueryContents recurse a relatedNode connect index
  /\ is_Some Sample.Actor.(auth)
  /\ @createSubqueryContents Sample.sampleImports recurse
       (Sample.connectActors false true (VArr [Sample.connectByName "Keanu" 1]))
       (Some Sample.Actor) (Sample.connectByName "Keanu" 1) index
     = ReferenceError "subquery"
  /\ @createConnectAndParams Sample.sampleImports (S fuel)
       (Sample.connectActors false true (VArr [Sample.connectByName "Keanu" 1]))
     = ReferenceError "subquery".
Proof.
  split; [| split; [| split]].
  - destruct relatedNode as [n |]; [| reflexivity].
    rewrite !createSubqueryContents_eq. reflexivity.
  - eexists; reflexivity.
  - reflexivity.
  - cbn [createConnectAndParams].
    rewrite (body_recurse _ (fun _ => NoFuel)). reflexivity.
Qed.


(* ===================================================================== *)
(** ** Further properties of the connect compiler *)
(* ===================================================================== *)

(** *** Objects built key by key *)

Lemma lookup_field_app_fresh (k : string) (v : any) (fs : list (string * any)) :
  ~ In k (fst <$> fs) -> lookup_field k (fs ++ [(k, v)]) = Some v.
Proof.
  unfold lookup_field. induction fs as [| [k' v'] fs IH]; cbn [app List.find fst fmap list_fmap];
    intros Hn.
  - rewrite String.eqb_refl. reflexivity.
  - destruct (String.eqb k' k) eqn:E.
    + apply String.eqb_eq in E. subst. exfalso. apply Hn. left. reflexivity.
    + apply IH. intros Hi. apply Hn. right. exact Hi.
Qed.

Lemma lookup_field_fresh (k : string) (fs : list (string * any)) :
  ~ In k (fst <$> fs) -> lookup_field k fs = None.
Proof.
  unfold lookup_field. induction fs as [| [k' v'] fs IH]; cbn [List.find fst fmap list_fmap];
    intros Hn; [reflexivity |].
  destruct (String.eqb k' k) eqn:E.
  - apply String.eqb_eq in E. subst. exfalso. apply Hn. left. reflexivity.
  - apply IH. intros Hi. apply Hn. right. exact Hi.
Qed.

Lemma obj_set_fresh (k : string) (v : any) (o : obj) :
  ~ In k (fst <$> o) -> obj_set k v o = o ++ [(k, v)].
Proof.
  induction o as [| [k' v'] o IH]; cbn [obj_set app fst fmap list_fmap]; intros Hn;
    [reflexivity |].
  destruct (String.eqb k' k) eqn:E.
  - apply String.eqb_eq in E. subst. exfalso. apply Hn. left. reflexivity.
  - rewrite IH; [reflexivity |]. intros Hi. apply Hn. right. exact Hi.
Qed.

Lemma lookup_field_obj_set_eq (k : string) (v : any) (o : obj) :
  lookup_field k (obj_set k v o) = Some v.
Proof.
  unfold lookup_field. induction o as [| [k' v'] o IH]; cbn [obj_set List.find fst].
  - rewrite String.eqb_refl. reflexivity.
  - destruct (String.eqb k' k) eqn:E; cbn [List.find fst].
    + rewrite String.eqb_refl. reflexivity.
    + rewrite E. exact IH.
Qed.

Lemma lookup_field_obj_set_ne (k k' : string) (v : any) (o : obj) :
  k' <> k -> lookup_field k (obj_set k' v o) = lookup_field k o.
Proof.
  intros Hne. unfold lookup_field.
  induction o as [| [k0 v0] o IH]; cbn [obj_set List.find fst].
  - apply String.eqb_neq in Hne. rewrite Hne. reflexivity.
  - destruct (String.eqb k0 k') eqn:E; cbn [List.find fst].
    + apply String.eqb_eq in E. subst k0. apply String.eqb_neq in Hne. rewrite Hne.
      reflexivity.
    + destruct (String.eqb k0 k); [reflexivity | exact IH].
Qed.

(** Copying the entries of an object without repeated keys, except those a
    test excludes, gives those entries in their order. *)
Lemma copy_entries (skip : string -> bool) (fs : list (string * any)) :
  NoDup (fst <$> fs) ->
  forall acc : obj,
    (forall k, In k (fst <$> fs) -> ~ In k (fst <$> acc)) ->
    fold_left (fun (args : obj) (kv : string * any) =>
                 let (k, v) := kv in if skip k then args else obj_set k v args) fs acc
    = acc ++ List.filter (fun kv => negb (skip (fst kv))) fs.
Proof.
  induction fs as [| [k v] fs IH]; cbn [fold_left List.filter fst fmap list_fmap];
    intros Hd acc Hf.
  - rewrite app_nil_r. reflexivity.
  - inversion Hd as [| ? ? Hk Hd']; subst.
    destruct (skip k); cbn [negb].
    + apply IH; [exact Hd' |]. intros k' Hi. apply Hf. right. exact Hi.
    + rewrite IH; [| exact Hd' |].
      * rewrite obj_set_fresh; [| apply Hf; left; reflexivity].
        rewrite <- app_assoc. reflexivity.
      * intros k' Hi. rewrite obj_set_fresh; [| apply Hf; left; reflexivity].
        rewrite fmap_app, in_app_iff. intros [Ha | [Hb | []]].
        -- apply (Hf k'); [right; exact Hi | exact Ha].
        -- cbn in Hb. subst k'. apply Hk, list_elem_of_In. exact Hi.
Qed.

Lemma fold_left_pointwise {A B : Type} (f g : A -> B -> A) :
  (forall a b, f a b = g a b) -> forall l a, fold_left f l a = fold_left g l a.
Proof.
  intros Hfg l. induction l as [| b l IH]; intros a; cbn [fold_left]; [reflexivity |].
  rewrite Hfg. apply IH.
Qed.

Lemma filter_all {A : Type} (xs : list A) : List.filter (fun _ => true) xs = xs.
Proof. induction xs as [| x xs IH]; cbn [List.filter]; [| rewrite IH]; reflexivity. Qed.

Lemma filter_other_keys (k : string) (fs : list (string * any)) :
  ~ In k (fst <$> fs) ->
  List.filter (fun kv => negb (String.eqb (fst kv) k)) fs = fs.
Proof.
  induction fs as [| [k' v'] fs IH]; cbn [List.filter fst fmap list_fmap]; intros Hn;
    [reflexivity |].
  destruct (String.eqb k' k) eqn:E.
  - apply String.eqb_eq in E. exfalso. apply Hn. left. exact E.
  - cbn [negb]. rewrite IH; [reflexivity |]. intros Hi. apply Hn. right. exact Hi.
Qed.

(** A spread assigns each entry of an object without repeated keys. *)
Lemma lookup_field_obj_spread (k : string) (v : any) (impl : list (string * any)) :
  NoDup (fst <$> impl) ->
  lookup_field k impl = Some v ->
  forall o : obj, lookup_field k (obj_spread o (VObj impl)) = Some v.
Proof.
  unfold obj_spread. cbn [own_entries].
  assert (Keep : forall fs o, ~ In k (fst <$> fs) ->
            lookup_field k (fold_left (fun acc kv => obj_set (fst kv) (snd kv) acc) fs o)
            = lookup_field k o).
  { induction fs as [| [k' v'] fs IH]; cbn [fold_left fst snd fmap list_fmap]; intros o Hn;
      [reflexivity |].
    rewrite IH; [| intros Hi; apply Hn; right; exact Hi].
    apply lookup_field_obj_set_ne. intros ->. apply Hn. left. reflexivity. }
  induction impl as [| [k' v'] impl IH]; cbn [fst fmap list_fmap]; intros Hd Hl o;
    [discriminate |].
  inversion Hd as [| ? ? Hk Hd']; subst. cbn [fold_left fst snd].
  unfold lookup_field in Hl. cbn [List.find fst] in Hl.
  destruct (String.eqb k' k) eqn:E.
  - apply String.eqb_eq in E. subst k'. cbn in Hl. inversion Hl; subst.
    rewrite Keep; [apply lookup_field_obj_set_eq |].
    intros Hi. apply Hk, list_elem_of_In. exact Hi.
  - apply IH; [exact Hd' | exact Hl].
Qed.



Lemma filterM_total {A : Type} (p : A -> result bool) (q : A -> bool) (xs : list A) :
  (forall x, p x = Ok (q x)) -> filterM p xs = Ok (List.filter q xs).
Proof.
  intros Hp. induction xs as [| x xs IH]; cbn [filterM List.filter]; [reflexivity |].
  rewrite Hp, IH. cbn [JS.bind]. reflexivity.
Qed.



Section ConnectEdgeProperties.

Context `{!Imports}.
Variable recurse : ConnectArgs -> result (string * Params).


(** *** The accumulator of [reducer] *)

(** X10. What has been compiled stays: folding [reducer] over further entries
    appends their lines to the lines accumulated so far and keeps every
    parameter name bound. *)
Theorem compiled_entries_are_only_appended (a : ConnectArgs) (xs : list any) (i : nat)
  (res res' : Res) :
  foldMi (reducer recurse a) i xs res = Ok res' ->
  exists e : Res,
    foldMi (reducer recurse a) i xs emptyRes = Ok e
    /\ res'.(connects) = res.(connects) ++ e.(connects)
    /\ (forall k, is_Some (res.(params) !! k) -> is_Some (res'.(params) !! k))
    /\ (forall k v, e.(params) !! k = Some v -> res'.(params) !! k = Some v).
Proof.
  rewrite foldMi_reducer_acc. intros E. inv_bind E. inversion E; subst.
  exists x. split; [exact Hx |]. split; [reflexivity |]. split.
  - intros k Hk. cbn [appendRes params]. unfold spread.
    apply lookup_union_is_Some. right. exact Hk.
  - intros k v Hk. cbn [appendRes params]. unfold spread.
    apply lookup_union_Some_l. exact Hk.
Qed.


(** X12. The value of a list field: the empty list compiles to the empty
    text without parameters, and a value that is not a list throws. *)
Theorem list_field_takes_a_list (a : ConnectArgs) :
  a.(relationField).(typeMeta).(tm_array) = true ->
  (a.(value) = VArr [] -> createConnectAndParams_body recurse a = Ok ("", ∅))
  /\ ((forall xs, a.(value) <> VArr xs) -> createConnectAndParams_body recurse a = TypeError).
Proof.
  intros Harr. unfold createConnectAndParams_body, connectValues. rewrite Harr. split.
  - intros ->. reflexivity.
  - intros Hv. destruct (value a); try reflexivity. exfalso. eapply Hv. reflexivity.
Qed.

(** *** Nodes without authorization rules *)

(** X13. When neither node carries authorization rules, the authorization
    generator is not consulted: the match clause that is built holds the
    filter alone and [reducer] pushes no [WHERE].  The subquery is not
    returned all the same: [createSubqueryContents] throws at the first
    undeclared name. *)
Theorem without_auth_the_match_holds_the_filter_alone (a : ConnectArgs)
  (relatedNode : Node) (connect : any) (index : nat) (ws : list Predicate) :
  relatedNode.(auth) = None ->
  a.(parentNode).(auth) = None ->
  whereFilter a relatedNode connect = Ok (Some ws) ->
  (exists b, buildClauses a relatedNode connect = Ok (Some b)
             /\ matched b.(matchClause) = Some (nodeRef a, ws))
  /\ createSubqueryContents recurse a (Some relatedNode) connect index
     = ReferenceError (firstRead a)
  /\ (forall res, pushParentWhere a res = res).
Proof.
  intros Hr Hp Hw.
  assert (Hpre : preAuthWhere a relatedNode = []).
  { unfold preAuthWhere, preAuth, nodeMatrix.
    destruct (fromCreate a); cbn [negb app reducei]; rewrite Hr, ?Hp; reflexivity. }
  split; [| split].
  - destruct (buildClauses_defined a relatedNode connect ws Hw) as (m & set & _ & _ & Hb).
    eexists. split; [exact Hb |]. cbn [matchClause matched].
    unfold whereAuthPredicate. rewrite Hr, Hpre. cbn [option_list]. rewrite !app_nil_r.
    reflexivity.
  - apply (createSubqueryContents_past_filter recurse a relatedNode connect index ws Hw).
  - intros res. unfold pushParentWhere. rewrite Hp. reflexivity.
Qed.

(** *** The node filter *)

Lemma lookup_field_before (k : string) (v : any) (fs rest : list (string * any)) :
  ~ In k (fst <$> fs) ->
  lookup_field k (fs ++ (k, v) :: rest) = Some v.
Proof.
  unfold lookup_field.
  induction fs as [| [k' v'] fs IH]; cbn [app List.find fst fmap list_fmap]; intros Hn.
  - rewrite String.eqb_refl. reflexivity.
  - destruct (String.eqb k' k) eqn:E.
    + apply String.eqb_eq in E. subst. exfalso. apply Hn. left. reflexivity.
    + apply IH. intros Hi. apply Hn. right. exact Hi.
Qed.

Lemma foldM_copy_unless (skip : string -> bool) (fs : list (string * any))
  (f : obj -> string * any -> result obj) :
  (forall args kv, In kv fs ->
     f args kv = Ok (if skip (fst kv) then args else obj_set (fst kv) (snd kv) args)) ->
  forall acc,
    foldM f fs acc
    = Ok (fold_left (fun (args : obj) (kv : string * any) =>
                       let (k, v) := kv in if skip k then args else obj_set k v args) fs acc).
Proof.
  induction fs as [| [k v] fs IH]; intros Hf acc; cbn [foldM fold_left]; [reflexivity |].
  rewrite Hf; [| left; reflexivity]. cbn [JS.bind fst snd].
  apply IH. intros args kv Hi. apply Hf. right. exact Hi.
Qed.

Lemma read_field (fs : list (string * any)) (k : string) (v : any) :
  lookup_field k fs = Some v -> read (VObj fs) k = Ok v.
Proof. intros E. unfold read, own_property. cbn [own_entries]. rewrite E. reflexivity. Qed.

Lemma opt_get_field (fs : list (string * any)) (k : string) (v : any) :
  lookup_field k fs = Some v -> opt_get (VObj fs) k = v.
Proof. intros E. unfold opt_get. rewrite (read_field fs k v E). reflexivity. Qed.

Lemma hasOwnProperty_field (fs : list (string * any)) (k : string) (v : any) :
  lookup_field k fs = Some v -> hasOwnProperty (VObj fs) k = Ok true.
Proof.
  intros E. unfold hasOwnProperty. f_equal. apply bool_decide_eq_true_2.
  unfold own_property. cbn [own_entries]. rewrite E. eexists; reflexivity.
Qed.

Lemma read_undefined (k : string) : read VUndefined k = Ok VUndefined.
Proof.
  unfold read, own_property. cbn [own_entries lookup_field List.find fmap option_fmap
    option_map own_length]. destruct (String.eqb k "length"); reflexivity.
Qed.

(** A name that an object does not own and that is not on
    [Object.prototype] reads as [undefined]. *)
Lemma read_no_field (fs : list (string * any)) (k : string) :
  ~ In k (fst <$> fs) -> has k Object_prototype = false ->
  read (VObj fs) k = Ok VUndefined.
Proof.
  intros Hn Hp. unfold read, own_property. cbn [own_entries own_length inherited].
  rewrite (lookup_field_fresh k fs Hn), Hp. destruct (String.eqb k "length"); reflexivity.
Qed.

(** Reading from an ordinary object never leaves the model. *)
Lemma read_object (fs : list (string * any)) (k : string) :
  read (VObj fs) k = Ok (opt_get (VObj fs) k).
Proof.
  unfold opt_get, read. destruct (own_property (VObj fs) k); reflexivity.
Qed.

(** X14. A node filter without [_on] is handed to the filter compiler as it
    is, once: the early return is not taken and no second predicate is
    built. *)
Theorem filter_without_on_is_compiled_once (a : ConnectArgs) (relatedNode : Node)
  (connect : any) (wf fs : list (string * any)) :
  get connect "where" = Ok (VObj wf) ->
  lookup_field "node" wf = Some (VObj fs) ->
  NoDup (fst <$> fs) ->
  ~ In "_on" (fst <$> fs) ->
  rootWhereInput relatedNode (VObj fs) = Ok fs
  /\ whereFilter a relatedNode connect
     = Ok (Some (option_list (wherePredicate a relatedNode fs))).
Proof.
  intros Hw Hn Hd Hon.
  assert (Hroot : rootWhereInput relatedNode (VObj fs) = Ok fs).
  { unfold rootWhereInput. cbn [entries own_entries JS.bind].
    rewrite (foldM_copy_unless (fun k => String.eqb k "_on")).
    - assert (Hnil : forall k, In k (fst <$> fs) -> ~ In k (fst <$> @nil (string * any)))
        by (intros k _ []).
      rewrite (copy_entries (fun k => String.eqb k "_on") fs Hd [] Hnil).
      cbn [app]. f_equal. apply filter_other_keys, Hon.
    - intros args [k v] _. cbn [fst snd].
      destruct (String.eqb k "_on"); cbn [negb]; [reflexivity |].
      rewrite (read_no_field fs "_on" Hon eq_refl). cbn [JS.bind].
      rewrite read_undefined. cbn [JS.bind]. rewrite read_undefined. reflexivity. }
  split; [exact Hroot |].
  unfold whereFilter. rewrite Hw. cbn [JS.bind truthy get].
  rewrite (read_field wf "node" (VObj fs) Hn). cbn [JS.bind].
  unfold onlyOnWithoutImplementation. cbn [get JS.bind].
  rewrite (read_no_field fs "_on" Hon eq_refl). cbn [truthy JS.bind].
  rewrite Hroot. cbn [JS.bind]. rewrite read_undefined. cbn [truthy JS.bind option_list].
  rewrite app_nil_r. reflexivity.
Qed.

(** X15. When [_on] is the last key of the node filter and names this
    implementation, the keys that the implementation's filter gives a
    truthy value are left out of the first predicate, the second predicate
    is compiled from the root filter with the implementation's filter
    spread over it, and there the value of a key is the one from [_on]. *)
Theorem on_filter_in_last_position_overrides (relatedNode : Node)
  (root onfs impl : list (string * any)) :
  NoDup (fst <$> root) ->
  ~ In "_on" (fst <$> root) ->
  lookup_field relatedNode.(name) onfs = Some (VObj impl) ->
  rootWhereInput relatedNode (VObj (root ++ [("_on", VObj onfs)]))
  = Ok (List.filter (fun kv => negb (truthy (opt_get (VObj impl) (fst kv)))) root)
  /\ onTypeWhereInput relatedNode (VObj (root ++ [("_on", VObj onfs)]))
     = Ok (obj_spread root (VObj impl))
  /\ (forall k v,
        NoDup (fst <$> impl) ->
        lookup_field k impl = Some v ->
        lookup_field k (obj_spread root (VObj impl)) = Some v).
Proof.
  intros Hd Hon Hl.
  assert (Hnil : forall k, In k (fst <$> root) -> ~ In k (fst <$> @nil (string * any)))
    by (intros k _ []).
  assert (Hkey : forall kv, In kv root -> String.eqb (fst kv) "_on" = false).
  { intros [k v] Hi. cbn [fst]. apply String.eqb_neq. intros ->. apply Hon.
    apply in_map_iff. exists ("_on", v). split; [reflexivity | exact Hi]. }
  split; [| split].
  - unfold rootWhereInput. cbn [entries own_entries JS.bind]. rewrite foldM_app.
    rewrite (foldM_copy_unless
               (fun k => String.eqb k "_on" || truthy (opt_get (VObj impl) k)) root).
    + rewrite (copy_entries (fun k => String.eqb k "_on" || truthy (opt_get (VObj impl) k))
                 root Hd [] Hnil).
      cbn [app JS.bind foldM]. rewrite String.eqb_refl. cbn [negb JS.bind foldM]. f_equal.
      clear Hd Hnil Hon. induction root as [| [k v] root IH]; cbn [List.filter fst];
        [reflexivity |].
      pose proof (Hkey (k, v) (or_introl eq_refl)) as Hk. cbn [fst] in Hk.
      rewrite Hk. cbn [orb].
      rewrite IH; [reflexivity |]. intros kv Hi. apply Hkey. right. exact Hi.
    + intros args [k v] Hi. pose proof (Hkey (k, v) Hi) as Hk. cbn [fst snd] in Hk |- *.
      rewrite Hk. cbn [negb orb].
      rewrite (read_field _ "_on" (VObj onfs) (lookup_field_before "_on" _ root [] Hon)).
      cbn [JS.bind]. rewrite (read_field onfs _ (VObj impl) Hl). cbn [JS.bind].
      rewrite read_object. cbn [JS.bind].
      destruct (truthy (opt_get (VObj impl) k)); reflexivity.
  - unfold onTypeWhereInput. cbn [entries own_entries JS.bind]. rewrite foldM_app.
    rewrite (foldM_copy_unless (fun _ => false) root).
    + rewrite (copy_entries (fun _ => false) root Hd [] Hnil). cbn [app negb].
      rewrite filter_all. cbn [JS.bind foldM]. rewrite String.eqb_refl. cbn [negb].
      rewrite (hasOwnProperty_field onfs _ (VObj impl) Hl). cbn [JS.bind get].
      rewrite (read_field onfs _ (VObj impl) Hl). reflexivity.
    + intros args [k v] Hi. pose proof (Hkey (k, v) Hi) as Hk. cbn [fst snd] in Hk |- *.
      rewrite Hk. reflexivity.
  - intros k v Hdi Hk. apply lookup_field_obj_spread; assumption.
Qed.

(** *** The keys of a nested connect *)

Lemma get_obj_set_other (fs : list (string * any)) (k k' : string) (v : any) :
  k' <> k -> get (VObj (obj_set k' v fs)) k = get (VObj fs) k.
Proof.
  intros Hne. cbn [get]. unfold read, own_property. cbn [own_entries own_length inherited].
  rewrite (lookup_field_obj_set_ne k k' v fs Hne). reflexivity.
Qed.



(** X17. The nested connects are not reached: whatever stands under
    [connect], [createSubqueryContents] returns or throws the same.  A key
    there that is no relation field of the related node does not make it
    to the lookup of the relation field. *)
Theorem nested_connects_are_not_reached (a : ConnectArgs) (relatedNode : option Node)
  (fs : list (string * any)) (nested : any) (index : nat) :
  createSubqueryContents recurse a relatedNode (VObj (obj_set "connect" nested fs)) index
  = createSubqueryContents recurse a relatedNode (VObj fs) index.
Proof.
  destruct relatedNode as [relatedNode |]; [| reflexivity].
  assert (Hw : whereFilter a relatedNode (VObj (obj_set "connect" nested fs))
               = whereFilter a relatedNode (VObj fs)).
  { unfold whereFilter. rewrite get_obj_set_other by discriminate. reflexivity. }
  rewrite !createSubqueryContents_eq, Hw. reflexivity.
Qed.

(** X18. A [where] without [node] throws: the filter is read before it is
    tested. *)
Theorem where_without_node_throws (a : ConnectArgs) (relatedNode : Node)
  (connect : any) (index : nat) (w : any) :
  get connect "where" = Ok w ->
  truthy w = true ->
  opt_get w "node" = VUndefined ->
  whereFilter a relatedNode connect = TypeError
  /\ createSubqueryContents recurse a (Some relatedNode) connect index = TypeError.
Proof.
  intros Hw Ht Hn.
  assert (E : whereFilter a relatedNode connect = TypeError).
  { unfold whereFilter. rewrite Hw. cbn [JS.bind]. rewrite Ht.
    assert (Hr : get w "node" = Ok VUndefined).
    { rewrite get_nonnullish by (intros ->; discriminate).
      rewrite <- Hn. apply read_falsy. rewrite Hn. reflexivity. }
    rewrite Hr. reflexivity. }
  split; [exact E |].
  unfold createSubqueryContents, buildClauses. rewrite E. reflexivity.
Qed.

(** *** Interface fields *)

(** X19. On an interface field, when the node filter is [_on] alone and
    names none of the implementations, no implementation is compiled and
    [reducer] pushes no [CALL] block. *)
Theorem no_implementation_named_no_call (a : ConnectArgs) (connect : any) (index : nat)
  (wf : list (string * any)) (on : any) (itf : InterfaceField) (res : Res) :
  get connect "where" = Ok (VObj wf) ->
  lookup_field "node" wf = Some (VObj [("_on", on)]) ->
  truthy on = true ->
  a.(relationField).(interface) = Some itf ->
  Forall (fun refNode => exists n : Node,
            refNode = Some n /\ hasOwnProperty on n.(name) = Ok false) a.(refNodes) ->
  reducer recurse a res connect index = Ok (pushFirstLevel a (pushParentWhere a res)).
Proof.
  intros Hw Hn Ht Hi Hf. unfold reducer, innerOf. rewrite Hi.
  assert (Hfold : forall i acc,
             foldMi (pushImplementation recurse a connect) i a.(refNodes) acc = Ok acc).
  { induction Hf as [| x xs (n & -> & Hh) _ IH]; intros i acc; cbn [foldMi]; [reflexivity |].
    unfold pushImplementation at 1. unfold createSubqueryContents, buildClauses.
    rewrite (whereFilter_skips a n connect wf on Hw Hn Ht Hh). cbn. apply IH. }
  rewrite Hfold. cbn.
  destruct (pushFirstLevel a (pushParentWhere a res)); reflexivity.
Qed.

(** *** Inputs that do not reach the text *)

Lemma createSubqueryContents_redirected (a : ConnectArgs) (d : Direction)
  (label : option string) (relatedNode : option Node) (connect : any) (index : nat) :
  createSubqueryContents recurse (Cases.redirected d label a) relatedNode connect index
  = createSubqueryContents recurse a relatedNode connect index.
Proof.
  destruct relatedNode as [relatedNode |]; [| reflexivity].
  rewrite !createSubqueryContents_eq. reflexivity.
Qed.

Lemma reducer_redirected (a : ConnectArgs) (d : Direction) (label : option string)
  (res : Res) (connect : any) (index : nat) :
  reducer recurse (Cases.redirected d label a) res connect index
  = reducer recurse a res connect index.
Proof.
  unfold reducer.
  change (pushFirstLevel (Cases.redirected d label a)
            (pushParentWhere (Cases.redirected d label a) res))
    with (pushFirstLevel a (pushParentWhere a res)).
  set (pre := pushFirstLevel a (pushParentWhere a res)).
  assert (Hi : innerOf recurse (Cases.redirected d label a) connect index (params pre)
               = innerOf recurse a connect index (params pre)).
  { unfold innerOf.
    change (interface (relationField (Cases.redirected d label a)))
      with (interface (relationField a)).
    change (refNodes (Cases.redirected d label a)) with (refNodes a).
    destruct (interface (relationField a)) as [itf |].
    - replace (foldMi (pushImplementation recurse (Cases.redirected d label a) connect) 0
                 (refNodes a) ([], params pre))
        with (foldMi (pushImplementation recurse a connect) 0 (refNodes a) ([], params pre));
        [reflexivity |].
      generalize 0 (@nil string, params pre).
      induction (refNodes a) as [| x xs IH]; intros i acc; cbn [foldMi]; [reflexivity |].
      unfold pushImplementation at 1 3. rewrite createSubqueryContents_redirected.
      destruct (createSubqueryContents recurse a x connect i) as [sq | | id | |]; cbn [JS.bind];
        try reflexivity.
      destruct (nonempty (subquery sq)); apply IH.
    - rewrite createSubqueryContents_redirected. reflexivity. }
  rewrite Hi. reflexivity.
Qed.

Lemma body_redirected (a : ConnectArgs) (d : Direction) (label : option string) :
  createConnectAndParams_body recurse (Cases.redirected d label a)
  = createConnectAndParams_body recurse a.
Proof.
  unfold createConnectAndParams_body.
  change (connectValues (Cases.redirected d label a)) with (connectValues a).
  destruct (connectValues a) as [values | | id | |]; cbn [JS.bind]; try reflexivity.
  replace (foldMi (reducer recurse (Cases.redirected d label a)) 0 values emptyRes)
    with (foldMi (reducer recurse a) 0 values emptyRes); [reflexivity |].
  generalize 0 emptyRes.
  induction values as [| x xs IH]; intros i res; cbn [foldMi]; [reflexivity |].
  rewrite reducer_redirected.
  destruct (reducer recurse a res x i); cbn [JS.bind]; try reflexivity. apply IH.
Qed.

(** X20. The properties given under [edge] do not reach what
    [createSubqueryContents] returns: the lines and the parameters are the
    same whatever the entry carries there. *)
Theorem edge_properties_do_not_reach_the_text (a : ConnectArgs)
  (relatedNode : option Node) (fs : list (string * any)) (edge : any) (index : nat) :
  createSubqueryContents recurse a relatedNode (VObj (obj_set "edge" edge fs)) index
  = createSubqueryContents recurse a relatedNode (VObj fs) index.
Proof.
  destruct relatedNode as [relatedNode |]; [| reflexivity].
  assert (Hw : whereFilter a relatedNode (VObj (obj_set "edge" edge fs))
               = whereFilter a relatedNode (VObj fs)).
  { unfold whereFilter. rewrite get_obj_set_other by discriminate. reflexivity. }
  rewrite !createSubqueryContents_eq, Hw. reflexivity.
Qed.

End ConnectEdgeProperties.

(** X21. The direction of the relation field and the label override have no
    part in what is returned: the text and the parameters are the same
    whatever they are, and the pattern that is merged runs from the related
    node to the parent node in either direction. *)
Theorem direction_and_label_override_do_not_reach_the_text `{!Imports}
  (fuel : nat) (a : ConnectArgs) (d : Direction) (label : option string) :
  createConnectAndParams fuel (Cases.redirected d label a) = createConnectAndParams fuel a
  /\ (forall connect,
        mergeOrCreateClause (Cases.redirected d label a) connect
        = mergeOrCreateClause a connect)
  /\ (relationshipPattern (Cases.redirected d label a)).(source) = NamedNode a.(varName)
  /\ (relationshipPattern (Cases.redirected d label a)).(target) = NamedNode a.(parentVar).
Proof.
  split; [| repeat split; reflexivity].
  destruct fuel as [| fuel]; [reflexivity |]. cbn [createConnectAndParams].
  apply body_redirected.
Qed.

(** An actor has been matched; the entry narrows the productions to shows,
    which none of the implementations is. *)
Lemma compiled_entries_are_only_appended_witness :
  exists e : Res,
    foldMi (@reducer Sample.sampleImports (fun _ => NoFuel)
              (Sample.connectActedIn (VArr [Cases.showsOnly])))
      0 [Cases.showsOnly] emptyRes = Ok e
    /\ ["MATCH (this:Actor)"; "WITH this"; "WHERE this.owner = $auth.jwt.sub"; "WITH this"]
       = ["MATCH (this:Actor)"] ++ e.(connects).
Proof.
  destruct (@compiled_entries_are_only_appended Sample.sampleImports
              (fun _ => NoFuel)
              (Sample.connectActedIn (VArr [Cases.showsOnly]))
              [Cases.showsOnly] 0
              {| connects := ["MATCH (this:Actor)"]; params := ∅ |}
              {| connects := ["MATCH (this:Actor)"; "WITH this";
                              "WHERE this.owner = $auth.jwt.sub"; "WITH this"];
                 params := spread ∅ {[ "auth" := VObj [] ]} |}
              eq_refl) as (e & He & Hc & _).
  exists e. split; [exact He | exact Hc].
Defined.


(** No actor is connected. *)
Lemma list_field_takes_a_list_witness :
  @createConnectAndParams_body Sample.sampleImports (fun _ => NoFuel)
    (Sample.connectActors false true (VArr []))
  = Ok ("", ∅).
Proof.
  apply (proj1 (@list_field_takes_a_list Sample.sampleImports
                  (fun _ => NoFuel) (Sample.connectActors false true (VArr [])) eq_refl)).
  reflexivity.
Defined.

(** A person is connected by name to a series. *)
Lemma without_auth_the_match_holds_the_filter_alone_witness :
  @createSubqueryContents Sample.sampleImports (fun _ => NoFuel)
    (Cases.connectPeople (VArr [Sample.connectByName "Name" 2]))
    (Some Cases.Person) (Sample.connectByName "Name" 2) 0
  = ReferenceError "subquery".
Proof.
  apply (@without_auth_the_match_holds_the_filter_alone Sample.sampleImports
           (fun _ => NoFuel)
           (Cases.connectPeople (VArr [Sample.connectByName "Name" 2]))
           Cases.Person (Sample.connectByName "Name" 2) 0
           [POpaque "this_connect_actors.name = $param"]);
    reflexivity.
Defined.

(** An actor is connected by name. *)
Lemma filter_without_on_is_compiled_once_witness :
  @whereFilter Sample.sampleImports
    (Sample.connectActors false true (VArr [Sample.connectByName "Name" 2]))
    Sample.Actor (Sample.connectByName "Name" 2)
  = Ok (Some [POpaque "this_connect_actors.name = $param"]).
Proof.
  apply (@filter_without_on_is_compiled_once Sample.sampleImports
           (Sample.connectActors false true (VArr [Sample.connectByName "Name" 2]))
           Sample.Actor (Sample.connectByName "Name" 2)
           [("node", VObj [("name", VStr "Name")])] [("name", VStr "Name")]).
  - reflexivity.
  - reflexivity.
  - apply NoDup_singleton.
  - simpl. intros [E | []]. discriminate.
Defined.

(** [{ released: true, constructor: "a", title: "b", _on: { Movie: { title: "c" } } }]:
    the filter under [_on] owns [title] and, as every object, inherits
    [constructor]. *)
Lemma on_filter_in_last_position_overrides_witness :
  rootWhereInput Sample.Movie
    (VObj ([("released", VBool true); ("constructor", VStr "a"); ("title", VStr "b")]
           ++ [("_on", VObj [("Movie", VObj [("title", VStr "c")])])]))
  = Ok [("released", VBool true)].
Proof.
  apply (@on_filter_in_last_position_overrides Sample.Movie
           [("released", VBool true); ("constructor", VStr "a"); ("title", VStr "b")]
           [("Movie", VObj [("title", VStr "c")])] [("title", VStr "c")]).
  - apply (NoDup_cons_2 "released" ["constructor"; "title"]);
      [| apply (NoDup_cons_2 "constructor" ["title"]); [| apply NoDup_singleton]].
    + intros E. apply list_elem_of_In in E. simpl in E.
      destruct E as [E | [E | []]]; discriminate.
    + intros E. apply list_elem_of_In in E. simpl in E. destruct E as [E | []].
      discriminate.
  - simpl. intros [E | [E | [E | []]]]; discriminate.
  - reflexivity.
Defined.


(** [{ where: {} }]. *)
Lemma where_without_node_throws_witness :
  @createSubqueryContents Sample.sampleImports (fun _ => NoFuel)
    (Sample.connectActors false true (VArr []))
    (Some Sample.Actor) (VObj [("where", VObj [])]) 0
  = TypeError.
Proof.
  apply (proj2 (@where_without_node_throws Sample.sampleImports
                  (fun _ => NoFuel) (Sample.connectActors false true (VArr []))
                  Sample.Actor (VObj [("where", VObj [])]) 0 (VObj [])
                  eq_refl eq_refl eq_refl)).
Defined.

(** An actor is connected to productions narrowed to shows, which is not
    an implementation. *)
Lemma no_implementation_named_no_call_witness :
  @reducer Sample.sampleImports (fun _ => NoFuel)
    (Sample.connectActedIn (VArr [])) emptyRes
    (VObj [("where", VObj [("node", VObj [("_on", VObj [("Show", VObj [])])])])]) 0
  = Ok {| connects := ["WITH this"; "WHERE this.owner = $auth.jwt.sub"; "WITH this"];
          params := spread ∅ {[ "auth" := VObj [] ]} |}.
Proof.
  apply (@no_implementation_named_no_call Sample.sampleImports
           (fun _ => NoFuel) (Sample.connectActedIn (VArr []))
           (VObj [("where", VObj [("node", VObj [("_on", VObj [("Show", VObj [])])])])]) 0
           [("node", VObj [("_on", VObj [("Show", VObj [])])])]
           (VObj [("Show", VObj [])]) Sample.Production emptyRes).
  - reflexivity.
  - reflexivity.
  - reflexivity.
  - reflexivity.
  - repeat constructor; eexists; split; reflexivity.
Defined.

(* ===================================================================== *)
(** ** Further properties of the custom-resolver metadata *)
(* ===================================================================== *)

Section ResolverProperties.

Import CustomResolver.
Context `{!Graphql}.

Lemma missingResolver_not_looked_up (args : Args) :
  args.(object).(kind) = INTERFACE_TYPE_DEFINITION \/ directive args = None ->
  forall resolvers, missingResolver (Cases.withCustomResolvers resolvers args) = Ok false.
Proof.
  intros Hk resolvers. unfold missingResolver.
  change (directive (Cases.withCustomResolvers resolvers args)) with (directive args).
  cbn [Cases.withCustomResolvers object].
  destruct Hk as [Hk | Hk]; rewrite Hk; [reflexivity |].
  destruct (kind (object args)); reflexivity.
Qed.

(** X9. A resolver is looked up only for a field of an object type that
    carries [@customResolver]: for an interface, or a field that carries only
    the deprecated directive, the outcome is the same whatever resolvers
    are given; for an object type, a field with [@customResolver] and no
    resolver throws before its arguments are read.  The resolver is looked
    up through the prototype chain: when the resolvers are an ordinary
    object that does not own the name of the field and the name is one of
    [Object.prototype], what is found there counts as the resolver and the
    call goes on to the arguments. *)
Theorem resolver_is_required_of_object_fields_only (args : Args) :
  (args.(object).(kind) = INTERFACE_TYPE_DEFINITION \/ directive args = None ->
   forall resolvers, metaOf (Cases.withCustomResolvers resolvers args) = metaOf args)
  /\ (args.(object).(kind) = OBJECT_TYPE_DEFINITION ->
      is_Some (directive args) ->
      truthy (opt_get args.(customResolvers) args.(field).(field_name)) = false ->
      metaOf args
      = Thrown ("Custom resolver for " +:+ args.(field).(field_name)
                  +:+ " has not been provided"))
  /\ (args.(object).(kind) = OBJECT_TYPE_DEFINITION ->
      is_Some (directive args) ->
      forall resolvers : list (string * any),
        args.(customResolvers) = VObj resolvers ->
        ~ In args.(field).(field_name) (fst <$> resolvers) ->
        has args.(field).(field_name) Object_prototype = true ->
        metaOf args = requiredFieldsOf args).
Proof.
  split; [| split].
  - intros Hk resolvers. unfold metaOf.
    rewrite (missingResolver_not_looked_up args Hk resolvers).
    pose proof (missingResolver_not_looked_up args Hk args.(customResolvers)) as Hm.
    destruct args. unfold Cases.withCustomResolvers in Hm.
    cbn [customResolvers object field objects interfaces unions interfaceField] in Hm.
    rewrite Hm. reflexivity.
  - intros Hk [d Hd] Hr. unfold metaOf, missingResolver.
    rewrite Hd, Hk, (read_falsy _ _ Hr). cbn [JS.bind]. rewrite Hr. reflexivity.
  - intros Hk [d Hd] resolvers Hc Hn Hp. unfold metaOf, missingResolver.
    rewrite Hd, Hk, Hc. unfold read, own_property. cbn [own_entries own_length inherited].
    rewrite (lookup_field_fresh _ _ Hn), Hp.
    destruct (String.eqb (field_name (field args)) "length"); reflexivity.
Qed.

End ResolverProperties.

(** The resolver map [{}] holds no resolver for the field [toString], and
    yet none is missed. *)
Lemma resolver_is_required_of_object_fields_only_witness :
  @CustomResolver.metaOf Cases.sampleGraphql Cases.inheritedNameArgs
  = CustomResolver.Returned None.
Proof.
  refine (proj2 (proj2 (@resolver_is_required_of_object_fields_only Cases.sampleGraphql
                  Cases.inheritedNameArgs)) eq_refl _ [] eq_refl _ eq_refl).
  - eexists; reflexivity.
  - simpl. intros [].
Defined.

(* ===================================================================== *)
(** ** Properties of the resolve trees of a selection set *)
(* ===================================================================== *)

Section ResolveTreeProperties.

Import ResolveTrees.

Context `{!ResolveTrees.Imports}.

(** Induction on a selection, with the selections under it. *)
Lemma SelectionNode_nested_ind (P : SelectionNode -> Prop) :
  (forall n, P (Field n None)) ->
  (forall n sels, Forall P sels -> P (Field n (Some sels))) ->
  (forall n, P (FragmentSpread n)) ->
  (forall tc, P (InlineFragment tc None)) ->
  (forall tc sels, Forall P sels -> P (InlineFragment tc (Some sels))) ->
  forall s, P s.
Proof.
  intros HF0 HF HS HI0 HI. fix IH 1.
  intros [n [sels |] | n | tc [sels |]].
  - apply HF. induction sels as [| x sels IHs]; constructor; [apply IH | exact IHs].
  - apply HF0.
  - apply HS.
  - apply HI. induction sels as [| x sels IHs]; constructor; [apply IH | exact IHs].
  - apply HI0.
Qed.

Lemma reduceE_app {A B : Type} (f : B -> A -> B + string) (xs ys : list A) :
  forall acc,
    reduceE f (xs ++ ys) acc
    = match reduceE f xs acc with
      | inl acc' => reduceE f ys acc'
      | inr message => inr message
      end.
Proof.
  induction xs as [| x xs IH]; intros acc; [reflexivity |].
  cbn [app reduceE]. destruct (f acc x); [apply IH | reflexivity].
Qed.

Section FixedSchema.

Variables objects interfaces : list TypeDefinitionNode.
Variable unions : list UnionTypeDefinitionNode.

(** What [reduceSelection] does for each kind of selection, with the
    recursive call written as [nestedSelectionSetToResolveTrees]. *)
Lemma reduceSelection_eq (objectFields : list FieldDefinitionNode)
  (outerFieldType : option string) (acc : obj) (selection : SelectionNode) :
  reduceSelection objects interfaces unions objectFields outerFieldType acc selection
  = match selection with
    | FragmentSpread _ => inr FRAGMENT_SPREAD_ERROR
    | InlineFragment typeCondition None => inl acc
    | InlineFragment typeCondition (Some selections) =>
        match nestedSelectionSetToResolveTrees objects interfaces unions objectFields
                selections None with
        | inr message => inr message
        | inl nestedResolveTree =>
            if is_truthy_string typeCondition
            then inl (obj_set (default "" typeCondition) (VObj nestedResolveTree) acc)
            else inr FRAGMENT_TYPE_ERROR
        end
    | Field name selectionSet =>
        match
          match selectionSet with
          | None => inl []
          | Some selections =>
              match getNestedType
                      (fd_type <$> List.find (fun field => String.eqb field.(fd_name) name)
                                     objectFields) with
              | inr message => inr message
              | inl fieldType =>
                  match innerObjectFields objects interfaces unions fieldType with
                  | None => inr ""
                  | Some inner =>
                      nestedSelectionSetToResolveTrees objects interfaces unions inner
                        selections (Some fieldType)
                  end
              end
          end
        with
        | inr message => inr message
        | inl nestedResolveTree =>
            let tree :=
              generateResolveTree
                {| rt_name := name; rt_fieldsByTypeName := nestedResolveTree |} in
            if is_truthy_string outerFieldType
            then inl (setUnder (default "" outerFieldType) tree acc)
            else inl (obj_spread acc tree)
        end
    end.
Proof.
  assert (E : forall l f o a,
             (fix nested (objectFields : list FieldDefinitionNode)
                (outerFieldType : option string) (selections : list SelectionNode)
                (acc : obj) {struct selections} : obj + string :=
                match selections with
                | [] => inl acc
                | selection :: rest =>
                    match reduceSelection objects interfaces unions objectFields
                            outerFieldType acc selection with
                    | inl acc' => nested objectFields outerFieldType rest acc'
                    | inr message => inr message
                    end
                end) f o l a
             = reduceE (reduceSelection objects interfaces unions f o) l a).
  { induction l as [| x l IH]; intros f o a; [reflexivity |].
    cbn [reduceE]. destruct (reduceSelection objects interfaces unions f o a x);
      [apply IH | reflexivity]. }
  unfold nestedSelectionSetToResolveTrees.
  destruct selection as [n [sels |] | n | tc [sels |]]; cbn [reduceSelection];
    rewrite ?E; try reflexivity.
  destruct (getNestedType _) as [fieldType | message]; [| reflexivity].
  destruct (innerObjectFields objects interfaces unions fieldType) as [inner |];
    rewrite ?E; reflexivity.
Qed.

End FixedSchema.

(** The folds inside [spreads] and [plain]. *)
Lemma spreads_eq (selection : SelectionNode) :
  spreads selection
  = match selection with
    | FragmentSpread _ => true
    | Field _ (Some selections) | InlineFragment _ (Some selections) =>
        existsb spreads selections
    | Field _ None | InlineFragment _ None => false
    end.
Proof.
  assert (E : forall l,
             (fix anyOf (selections : list SelectionNode) : bool :=
                match selections with
                | [] => false
                | selection :: rest => spreads selection || anyOf rest
                end) l = existsb spreads l).
  { induction l as [| x l IH]; [reflexivity |]. cbn [existsb]. rewrite <- IH. reflexivity. }
  destruct selection as [n [sels |] | n | tc [sels |]]; cbn [spreads]; rewrite ?E;
    reflexivity.
Qed.

Lemma plain_eq (selection : SelectionNode) :
  plain selection
  = match selection with
    | Field _ None | InlineFragment _ None => true
    | InlineFragment typeCondition (Some selections) =>
        is_truthy_string typeCondition && forallb plain selections
    | Field _ (Some _) | FragmentSpread _ => false
    end.
Proof.
  assert (E : forall l,
             (fix allOf (selections : list SelectionNode) : bool :=
                match selections with
                | [] => true
                | selection :: rest => plain selection && allOf rest
                end) l = forallb plain l).
  { induction l as [| x l IH]; [reflexivity |]. cbn [forallb]. rewrite <- IH. reflexivity. }
  destruct selection as [n [sels |] | n | tc [sels |]]; cbn [plain]; rewrite ?E;
    reflexivity.
Qed.

(** A fold throws when it meets an element on which the callback throws
    whatever has been accumulated. *)
Lemma reduceE_throws {A B : Type} (f : B -> A -> B + string) (bad : A -> bool)
  (xs : list A) :
  Forall (fun x => bad x = true -> forall acc, exists message, f acc x = inr message) xs ->
  existsb bad xs = true ->
  forall acc, exists message, reduceE f xs acc = inr message.
Proof.
  induction 1 as [| x xs Hx _ IH]; cbn [existsb reduceE]; intros Hb acc; [discriminate |].
  destruct (bad x) eqn:Ebad.
  - destruct (Hx eq_refl acc) as [message ->]. exists message. reflexivity.
  - destruct (f acc x) as [acc' | message]; [| exists message; reflexivity].
    apply IH. exact Hb.
Qed.

Lemma spread_throws (objects interfaces : list TypeDefinitionNode)
  (unions : list UnionTypeDefinitionNode) (selection : SelectionNode) :
  spreads selection = true ->
  forall objectFields outerFieldType acc,
  exists message,
    reduceSelection objects interfaces unions objectFields outerFieldType acc selection
    = inr message.
Proof.
  induction selection as [n | n sels IH | n | tc | tc sels IH]
    using SelectionNode_nested_ind;
    rewrite spreads_eq; intros Hs objectFields outerFieldType acc;
    try discriminate; rewrite reduceSelection_eq.
  - destruct (getNestedType _) as [fieldType | message]; [| eexists; reflexivity].
    destruct (innerObjectFields objects interfaces unions fieldType) as [inner |];
      [| eexists; reflexivity].
    unfold nestedSelectionSetToResolveTrees.
    destruct (reduceE_throws (reduceSelection objects interfaces unions inner (Some fieldType))
                spreads sels) with (acc := @nil (string * any)) as [message ->].
    + eapply Forall_impl; [exact IH |]. intros s Hs' Hb acc'. apply Hs', Hb.
    + exact Hs.
    + eexists; reflexivity.
  - eexists; reflexivity.
  - unfold nestedSelectionSetToResolveTrees.
    destruct (reduceE_throws (reduceSelection objects interfaces unions objectFields None)
                spreads sels) with (acc := @nil (string * any)) as [message ->].
    + eapply Forall_impl; [exact IH |]. intros s Hs' Hb acc'. apply Hs', Hb.
    + exact Hs.
    + eexists; reflexivity.
Qed.

(** X2. [selectionSetToResolveTree] returns a tree only for a document
    that consists of one operation definition whose selections hold no
    fragment spread at any depth; the tree is that of the operation's
    selection set, resolved without an outer type. *)
Theorem selection_set_resolves_single_operation_without_spreads
  (objects interfaces : list TypeDefinitionNode) (unions : list UnionTypeDefinitionNode)
  (objectFields : list FieldDefinitionNode) (document : DocumentNode) (tree : obj) :
  selectionSetToResolveTree objects interfaces unions objectFields document = inl tree ->
  exists selections,
    document.(definitions) = [OperationDefinition selections]
    /\ existsb spreads selections = false
    /\ nestedSelectionSetToResolveTrees objects interfaces unions objectFields
         selections None = inl tree.
Proof.
  unfold selectionSetToResolveTree. intros Ht.
  destruct (definitions document) as [| [selections |] [| d ds]]; try discriminate.
  exists selections. split; [reflexivity |]. split; [| exact Ht].
  destruct (existsb spreads selections) eqn:Es; [| reflexivity].
  unfold nestedSelectionSetToResolveTrees in Ht.
  destruct (reduceE_throws (reduceSelection objects interfaces unions objectFields None)
              spreads selections) with (acc := @nil (string * any)) as [message Hm].
  - apply Forall_forall. intros s _ Hs acc. apply spread_throws, Hs.
  - exact Es.
  - rewrite Hm in Ht. discriminate.
Qed.

(** Plain selections resolve, to a tree that the schema has no part in. *)
Lemma plain_resolves (selection : SelectionNode) :
  plain selection = true ->
  forall outerFieldType acc,
  exists tree,
    forall objects interfaces unions objectFields,
      reduceSelection objects interfaces unions objectFields outerFieldType acc selection
      = inl tree.
Proof.
  assert (L : forall sels,
             Forall (fun s => plain s = true -> forall o acc, exists tree,
                       forall objects interfaces unions objectFields,
                         reduceSelection objects interfaces unions objectFields o acc s
                         = inl tree) sels ->
             forallb plain sels = true ->
             forall o acc, exists tree,
               forall objects interfaces unions objectFields,
                 reduceE (reduceSelection objects interfaces unions objectFields o) sels acc
                 = inl tree).
  { induction 1 as [| x xs Hx _ IH]; cbn [forallb reduceE]; intros Hp o acc.
    - exists acc. reflexivity.
    - apply andb_prop in Hp as [Hp1 Hp2].
      destruct (Hx Hp1 o acc) as [t1 H1]. destruct (IH Hp2 o t1) as [t2 H2].
      exists t2. intros. rewrite H1. apply H2. }
  induction selection as [n | n sels IH | n | tc | tc sels IH]
    using SelectionNode_nested_ind;
    rewrite plain_eq; intros Hp outerFieldType acc; try discriminate.
  - destruct (is_truthy_string outerFieldType) eqn:Eo; eexists; intros;
      rewrite reduceSelection_eq; cbv zeta; rewrite Eo; reflexivity.
  - exists acc. intros. rewrite reduceSelection_eq. reflexivity.
  - apply andb_prop in Hp as [Htc Hp].
    destruct (L sels IH Hp None []) as [t Ht].
    exists (obj_set (default "" tc) (VObj t) acc). intros.
    rewrite reduceSelection_eq. unfold nestedSelectionSetToResolveTrees.
    rewrite Ht, Htc. reflexivity.
Qed.

(** X3. Fields without a selection set and inline fragments with a type
    condition over such selections are not checked against the schema: they
    resolve, and to the same tree whatever the object fields, objects,
    interfaces and unions are. *)
Theorem plain_selections_are_not_checked_against_the_schema
  (selections : list SelectionNode) (outerFieldType : option string) :
  forallb plain selections = true ->
  exists tree,
    forall objects interfaces unions objectFields,
      nestedSelectionSetToResolveTrees objects interfaces unions objectFields
        selections outerFieldType = inl tree.
Proof.
  unfold nestedSelectionSetToResolveTrees. generalize (@nil (string * any)).
  induction selections as [| x xs IH]; cbn [forallb reduceE]; intros acc Hp.
  - exists acc. reflexivity.
  - apply andb_prop in Hp as [Hp1 Hp2].
    destruct (plain_resolves x Hp1 outerFieldType acc) as [t1 H1].
    destruct (IH t1 Hp2) as [t2 H2].
    exists t2. intros. rewrite H1. apply H2.
Qed.

(** X1. [getNestedType] gives the named type under any nesting of list
    and non-null wrappers, and throws only when the type is missing, with
    the message of the related field required by a custom resolver. *)
Theorem getNestedType_strips_wrappers :
  (forall (ws : list Wrapper) (n : string),
     getNestedType (Some (wrap ws (NamedType n))) = inl n)
  /\ (forall (type : option TypeNode) (message : string),
        getNestedType type = inr message <-> type = None /\ message = NESTED_TYPE_ERROR).
Proof.
  split.
  - intros ws n. unfold getNestedType. f_equal.
    induction ws as [| [|] ws IH]; cbn [wrap fold_right namedTypeOf]; auto.
  - intros [type |] message; cbn [getNestedType]; split.
    + discriminate.
    + intros [E _]; discriminate.
    + intros E. inversion E. split; reflexivity.
    + intros [_ ->]. reflexivity.
Qed.

Lemma find_none_Forall {A : Type} (p : A -> bool) (xs : list A) :
  Forall (fun x => p x = false) xs -> List.find p xs = None.
Proof.
  induction 1 as [| x xs Hx _ IH]; cbn [List.find]; [reflexivity |]. rewrite Hx. exact IH.
Qed.

(** X4. A field with a selection set that is not among the object fields
    throws the error of [getNestedType], once the selections before it have
    resolved. *)
Theorem related_field_must_be_declared
  (objects interfaces : list TypeDefinitionNode) (unions : list UnionTypeDefinitionNode)
  (objectFields : list FieldDefinitionNode) (outerFieldType : option string)
  (before after sub : list SelectionNode) (name : string) (tree : obj) :
  nestedSelectionSetToResolveTrees objects interfaces unions objectFields before
    outerFieldType = inl tree ->
  Forall (fun field => field.(fd_name) <> name) objectFields ->
  nestedSelectionSetToResolveTrees objects interfaces unions objectFields
    (before ++ Field name (Some sub) :: after) outerFieldType
  = inr NESTED_TYPE_ERROR.
Proof.
  unfold nestedSelectionSetToResolveTrees. intros Hb Hf.
  rewrite reduceE_app, Hb. cbn [reduceE]. rewrite reduceSelection_eq.
  rewrite find_none_Forall; [reflexivity |].
  eapply Forall_impl; [exact Hf |]. intros f Hn. apply String.eqb_neq, Hn.
Qed.

(** X5. A field with a selection set whose type is not the name of an
    object, an interface or a union throws an error with an empty message,
    once the selections before it have resolved. *)
Theorem related_type_must_be_defined
  (objects interfaces : list TypeDefinitionNode) (unions : list UnionTypeDefinitionNode)
  (objectFields : list FieldDefinitionNode) (outerFieldType : option string)
  (before after sub : list SelectionNode) (name : string) (tree : obj)
  (field : FieldDefinitionNode) :
  nestedSelectionSetToResolveTrees objects interfaces unions objectFields before
    outerFieldType = inl tree ->
  List.find (fun field => String.eqb field.(fd_name) name) objectFields = Some field ->
  Forall (fun obj => obj.(td_name) <> namedTypeOf field.(fd_type)) (objects ++ interfaces) ->
  Forall (fun union => union.(ud_name) <> namedTypeOf field.(fd_type)) unions ->
  nestedSelectionSetToResolveTrees objects interfaces unions objectFields
    (before ++ Field name (Some sub) :: after) outerFieldType
  = inr "".
Proof.
  unfold nestedSelectionSetToResolveTrees. intros Hb Hf Ho Hu.
  rewrite reduceE_app, Hb. cbn [reduceE]. rewrite reduceSelection_eq, Hf.
  cbn [fmap option_fmap option_map getNestedType].
  unfold innerObjectFields, fieldsOfType, unionImplementations.
  rewrite !find_none_Forall; [reflexivity | |].
  - eapply Forall_impl; [exact Hu |]. intros u Hn. apply String.eqb_neq, Hn.
  - eapply Forall_impl; [exact Ho |]. intros o Hn. apply String.eqb_neq, Hn.
Qed.


(** X7. An inline fragment in last position must carry a type condition;
    its selections are resolved against the same object fields without an
    outer type, and the tree holds exactly their result under the type
    condition, in place of what an earlier fragment on the same type put
    there. *)
Theorem last_inline_fragment_sets_its_type
  (objects interfaces : list TypeDefinitionNode) (unions : list UnionTypeDefinitionNode)
  (objectFields : list FieldDefinitionNode) (outerFieldType : option string)
  (before sub : list SelectionNode) (typeCondition : option string) (tree : obj) :
  nestedSelectionSetToResolveTrees objects interfaces unions objectFields
    (before ++ [InlineFragment typeCondition (Some sub)]) outerFieldType = inl tree ->
  exists fieldType nested,
    typeCondition = Some fieldType
    /\ nestedSelectionSetToResolveTrees objects interfaces unions objectFields sub None
       = inl nested
    /\ lookup_field fieldType tree = Some (VObj nested).
Proof.
  unfold nestedSelectionSetToResolveTrees. rewrite reduceE_app.
  destruct (reduceE (reduceSelection objects interfaces unions objectFields outerFieldType)
              before []) as [acc |]; [| discriminate].
  cbn [reduceE]. rewrite reduceSelection_eq. unfold nestedSelectionSetToResolveTrees.
  destruct (reduceE (reduceSelection objects interfaces unions objectFields None) sub [])
    as [nested |]; [| discriminate].
  destruct typeCondition as [fieldType |]; cbn [is_truthy_string]; [| discriminate].
  destruct (nonempty fieldType); [| discriminate].
  cbn [default]. intros E. inversion E.
  exists fieldType, nested. split; [reflexivity |]. split; [reflexivity |].
  apply lookup_field_obj_set_eq.
Qed.

Lemma find_same_named_types (name : string) (fields1 fields2 : list FieldDefinitionNode) :
  sameNamedTypes fields1 fields2 ->
  getNestedType (fd_type <$> List.find (fun field => String.eqb field.(fd_name) name) fields1)
  = getNestedType (fd_type <$> List.find (fun field => String.eqb field.(fd_name) name) fields2).
Proof.
  induction 1 as [| f g fs gs [Hn Ht] _ IH]; cbn [List.find]; [reflexivity |].
  rewrite <- Hn. destruct (String.eqb (fd_name f) name); [| exact IH].
  cbn [fmap option_fmap option_map getNestedType]. rewrite Ht. reflexivity.
Qed.

Lemma wrappers_irrelevant_selection
  (objects interfaces : list TypeDefinitionNode) (unions : list UnionTypeDefinitionNode)
  (fields1 fields2 : list FieldDefinitionNode) (selection : SelectionNode) :
  sameNamedTypes fields1 fields2 ->
  forall outerFieldType acc,
    reduceSelection objects interfaces unions fields1 outerFieldType acc selection
    = reduceSelection objects interfaces unions fields2 outerFieldType acc selection.
Proof.
  intros Hs.
  induction selection as [n | n sels IH | n | tc | tc sels IH]
    using SelectionNode_nested_ind; intros outerFieldType acc;
    rewrite !reduceSelection_eq; try reflexivity.
  - rewrite (find_same_named_types n fields1 fields2 Hs). reflexivity.
  - unfold nestedSelectionSetToResolveTrees.
    replace (reduceE (reduceSelection objects interfaces unions fields1 None) sels [])
      with (reduceE (reduceSelection objects interfaces unions fields2 None) sels []);
      [reflexivity |].
    generalize (@nil (string * any)).
    induction IH as [| s sels Hs' _ IHs]; intros acc'; cbn [reduceE]; [reflexivity |].
    rewrite Hs'. destruct (reduceSelection _ _ _ fields2 None acc' s); [apply IHs | reflexivity].
Qed.

(** X8. The list and non-null wrappers of the types of the object fields
    have no part in the result: two lists of fields that agree on names and
    named types resolve every selection set alike. *)
Theorem wrappers_of_field_types_are_irrelevant
  (objects interfaces : list TypeDefinitionNode) (unions : list UnionTypeDefinitionNode)
  (fields1 fields2 : list FieldDefinitionNode) (selections : list SelectionNode)
  (outerFieldType : option string) :
  sameNamedTypes fields1 fields2 ->
  nestedSelectionSetToResolveTrees objects interfaces unions fields1 selections outerFieldType
  = nestedSelectionSetToResolveTrees objects interfaces unions fields2 selections
      outerFieldType.
Proof.
  intros Hs. unfold nestedSelectionSetToResolveTrees. generalize (@nil (string * any)).
  induction selections as [| s sels IH]; intros acc; cbn [reduceE]; [reflexivity |].
  rewrite (wrappers_irrelevant_selection objects interfaces unions fields1 fields2 s Hs).
  destruct (reduceSelection _ _ _ fields2 outerFieldType acc s); [apply IH | reflexivity].
Qed.

End ResolveTreeProperties.

Section ResolveTreeExamples.

Import ResolveTrees.

(** [{ title actors { name } }] on a movie. *)
Lemma selection_set_resolves_single_operation_without_spreads_witness :
  exists selections,
    titleAndActors.(definitions) = [OperationDefinition selections]
    /\ existsb spreads selections = false
    /\ @nestedSelectionSetToResolveTrees sampleImports [Movie; Actor] [] [] movieFields
         selections None = inl titleAndActorsTree.
Proof.
  apply (@selection_set_resolves_single_operation_without_spreads sampleImports
           [Movie; Actor] [] [] movieFields titleAndActors titleAndActorsTree).
  reflexivity.
Defined.

(** [{ title ... on Series { episodes } }] resolves under any schema. *)
Lemma plain_selections_are_not_checked_against_the_schema_witness :
  exists tree,
    forall objects interfaces unions objectFields,
      @nestedSelectionSetToResolveTrees sampleImports objects interfaces unions objectFields
        [Field "title" None; InlineFragment (Some "Series") (Some [Field "episodes" None])]
        None = inl tree.
Proof.
  apply (@plain_selections_are_not_checked_against_the_schema sampleImports
           [Field "title" None; InlineFragment (Some "Series") (Some [Field "episodes" None])]
           None).
  reflexivity.
Defined.

(** [{ title director { name } }] on a movie, which has no director. *)
Lemma related_field_must_be_declared_witness :
  @nestedSelectionSetToResolveTrees sampleImports [Movie; Actor] [] [] movieFields
    ([Field "title" None] ++ Field "director" (Some [Field "name" None]) :: []) None
  = inr NESTED_TYPE_ERROR.
Proof.
  apply (@related_field_must_be_declared sampleImports [Movie; Actor] [] [] movieFields None
           [Field "title" None] [] [Field "name" None] "director"
           [("title", treeOf "title" [])]).
  - reflexivity.
  - repeat constructor; discriminate.
Defined.

(** [{ studio { name } }] where no type is named [Studio]. *)
Lemma related_type_must_be_defined_witness :
  @nestedSelectionSetToResolveTrees sampleImports [Movie; Actor] [] []
    [ {| fd_name := "studio"; fd_type := NamedType "Studio" |} ]
    ([] ++ Field "studio" (Some [Field "name" None]) :: []) None
  = inr "".
Proof.
  apply (@related_type_must_be_defined sampleImports [Movie; Actor] [] []
           [ {| fd_name := "studio"; fd_type := NamedType "Studio" |} ] None
           [] [] [Field "name" None] "studio" []
           {| fd_name := "studio"; fd_type := NamedType "Studio" |}).
  - reflexivity.
  - reflexivity.
  - repeat constructor; discriminate.
  - constructor.
Defined.


(** [{ ... on Movie { title } ... on Movie { actors } }]: the second
    fragment is what is kept for [Movie]. *)
Lemma last_inline_fragment_sets_its_type_witness :
  exists fieldType nested,
    Some "Movie" = Some fieldType
    /\ @nestedSelectionSetToResolveTrees sampleImports [Movie; Actor] [] [] movieFields
         [Field "actors" None] None = inl nested
    /\ lookup_field fieldType [("Movie", VObj [("actors", treeOf "actors" [])])]
       = Some (VObj nested).
Proof.
  apply (@last_inline_fragment_sets_its_type sampleImports [Movie; Actor] [] [] movieFields
           None [InlineFragment (Some "Movie") (Some [Field "title" None])]
           [Field "actors" None] (Some "Movie")).
  reflexivity.
Defined.

(** The fields of a movie declared with bare types. *)
Lemma wrappers_of_field_types_are_irrelevant_witness :
  @nestedSelectionSetToResolveTrees sampleImports [Movie; Actor] [] [] movieFields
    [Field "title" None; Field "actors" (Some [Field "name" None])] None
  = @nestedSelectionSetToResolveTrees sampleImports [Movie; Actor] [] []
      [ {| fd_name := "title"; fd_type := NamedType "String" |};
        {| fd_name := "actors"; fd_type := NamedType "Actor" |} ]
      [Field "title" None; Field "actors" (Some [Field "name" None])] None.
Proof.
  apply (@wrappers_of_field_types_are_irrelevant sampleImports [Movie; Actor] [] []).
  repeat constructor.
Defined.

End ResolveTreeExamples.

